(** * Login form and student records (React Native): a shallow embedding

    The repository has two screens.  [LoginScreen] posts the credentials
    to a remote endpoint with axios and replaces the route by [Home] when
    the answer carries a token.  [HomeScreen] keeps a list of students
    in component state and mirrors it, as one JSON text, under the key
    [students] of AsyncStorage.  (A second, older [HomeScreen] only
    greets the user and offers the logout button; it has no state.)

    The component state (the [useState] cells) and the collaborators the
    handlers talk to (AsyncStorage, the alert dialogs, the console, the
    navigator) are fields of one record that every handler takes and
    returns.  What the outside world answers (the HTTP outcome, whether
    a storage call rejects, the clock, the button pressed on a dialog)
    is an argument of the handler. *)

From Stdlib Require Import ZArith Ascii String.
From stdpp Require Import base option list strings gmap pretty.

Local Open Scope string_scope.
Local Open Scope list_scope.

(** * The host language *)

Module Js.

(** [!!s] for a string: the empty string is the one falsy string. *)
Definition truthy (s : string) : bool :=
  match s with
  | EmptyString => false
  | String _ _ => true
  end.

(** A [string | null] cell used as a condition: the narrowed string
    when the cell is truthy (neither [null] nor empty). *)
Definition narrow (o : option string) : option string :=
  match o with
  | Some s => if truthy s then Some s else None
  | None => None
  end.

(** Values met in a response body, as far as a property read and a
    truthiness test can tell them apart. *)
#[local] Set Warnings "-register-all".
Inductive value : Type :=
| Undefined
| Null
| Bool (b : bool)
| Number (z : Z)
| Str (s : string)
| Object (members : list (string * value)).

(** [!!v]. *)
Definition truthy_value (v : value) : bool :=
  match v with
  | Undefined | Null => false
  | Bool b => b
  | Number z => negb (z =? 0)%Z
  | Str s => truthy s
  | Object _ => true
  end.

(** The member written last under a key is the one an object holds. *)
Fixpoint member (k : string) (ms : list (string * value)) : option value :=
  match ms with
  | [] => None
  | (k', v) :: ms' =>
      match member k ms' with
      | Some v' => Some v'
      | None => if String.eqb k' k then Some v else None
      end
  end.

(** [v.k] for a key that no prototype defines: [None] is the
    TypeError thrown on [undefined] and [null]. *)
Definition get (v : value) (k : string) : option value :=
  match v with
  | Undefined | Null => None
  | Object ms => Some (default Undefined (member k ms))
  | Bool _ | Number _ | Str _ => Some Undefined
  end.

End Js.

(** * The student record *)

Module Student.

Record t : Type := mk {
  id : string;
  first_name : string;
  last_name : string;
  email : string;
  age : string;
  grade : string;
}.

Global Instance eq_dec : EqDecision t.
Proof. solve_decision. Defined.

End Student.

Abbreviation Student := Student.t.

(** * JSON texts of student arrays

    [JSON.stringify] and [JSON.parse] belong to the runtime.  They are
    modelled on the values the component hands them: arrays of objects
    whose six members are strings.  A [string] is read as a sequence of
    code units below 256. *)

Module JSON.

Definition dquote : ascii := "034"%char.
Definition backslash : ascii := "092"%char.

Definition hex_digit (n : N) : ascii :=
  match n with
  | 0 => "0" | 1 => "1" | 2 => "2" | 3 => "3" | 4 => "4" | 5 => "5"
  | 6 => "6" | 7 => "7" | 8 => "8" | 9 => "9" | 10 => "a" | 11 => "b"
  | 12 => "c" | 13 => "d" | 14 => "e" | _ => "f"
  end%N%char.

(** QuoteJSONString, one code unit: the quote and the backslash are
    escaped, the five short escapes are used, any other control
    character is written [\u00xx]. *)
Definition quote_char (c : ascii) : string :=
  let n := N_of_ascii c in
  if (n =? 34)%N then String backslash (String dquote "")
  else if (n =? 92)%N then String backslash (String backslash "")
  else if (n =? 8)%N then String backslash "b"
  else if (n =? 12)%N then String backslash "f"
  else if (n =? 10)%N then String backslash "n"
  else if (n =? 13)%N then String backslash "r"
  else if (n =? 9)%N then String backslash "t"
  else if (n <? 32)%N then
    String backslash
      (String "u" (String "0" (String "0"
        (String (hex_digit (n / 16)) (String (hex_digit (n mod 16)) "")))))
  else String c "".

Fixpoint quote_body (s : string) : string :=
  match s with
  | EmptyString => ""
  | String c s' => quote_char c ++ quote_body s'
  end.

Definition quote (s : string) : string :=
  String dquote (quote_body s ++ String dquote "").

Definition stringify_member (k v : string) : string :=
  quote k ++ ":" ++ quote v.

(** The members in the order the object literals of [saveStudent]
    list them. *)
Definition stringify_student (r : Student) : string :=
  "{" ++ stringify_member "id" (Student.id r)
  ++ "," ++ stringify_member "first_name" (Student.first_name r)
  ++ "," ++ stringify_member "last_name" (Student.last_name r)
  ++ "," ++ stringify_member "email" (Student.email r)
  ++ "," ++ stringify_member "age" (Student.age r)
  ++ "," ++ stringify_member "grade" (Student.grade r)
  ++ "}".

Fixpoint stringify_elements (l : list Student) : string :=
  match l with
  | [] => ""
  | [r] => stringify_student r
  | r :: l' => stringify_student r ++ "," ++ stringify_elements l'
  end.

Definition stringify (l : list Student) : string :=
  "[" ++ stringify_elements l ++ "]".

(** ** Reading a text back *)

Inductive token : Type :=
| LBracket | RBracket | LBrace | RBrace | Colon | Comma
| Lit (s : string).

Definition is_ws (c : ascii) : bool :=
  let n := N_of_ascii c in
  (n =? 32)%N || (n =? 9)%N || (n =? 10)%N || (n =? 13)%N.

Definition hex_value (c : ascii) : option N :=
  let n := N_of_ascii c in
  if (48 <=? n)%N && (n <=? 57)%N then Some (n - 48)%N
  else if (97 <=? n)%N && (n <=? 102)%N then Some (n - 87)%N
  else if (65 <=? n)%N && (n <=? 70)%N then Some (n - 55)%N
  else None.

(** The character a two-character escape stands for. *)
Definition short_escape (c : ascii) : option ascii :=
  let n := N_of_ascii c in
  if (n =? 34)%N then Some dquote
  else if (n =? 92)%N then Some backslash
  else if (n =? 47)%N then Some "/"%char
  else if (n =? 98)%N then Some "008"%char
  else if (n =? 102)%N then Some "012"%char
  else if (n =? 110)%N then Some "010"%char
  else if (n =? 114)%N then Some "013"%char
  else if (n =? 116)%N then Some "009"%char
  else None.

(** A [\uXXXX] escape, for the code units a [string] can hold. *)
Definition unicode_escape (h1 h2 h3 h4 : ascii) : option ascii :=
  a ← hex_value h1; b ← hex_value h2; c ← hex_value h3; d ← hex_value h4;
  if ((a =? 0) && (b =? 0))%N then Some (ascii_of_N (c * 16 + d)) else None.

Definition string_of_rev (acc : list ascii) : string :=
  string_of_list_ascii (rev acc).

(** The lexer.  [lit] is [None] between tokens and [Some acc] inside a
    string literal, [acc] holding the characters read so far, last
    first.  [out] holds the tokens read so far, last first. *)
Fixpoint lex (s : string) (lit : option (list ascii)) (out : list token)
  : option (list token) :=
  match lit, s with
  | None, EmptyString => Some (rev out)
  | None, String c s' =>
      if is_ws c then lex s' None out
      else if Ascii.eqb c "[" then lex s' None (LBracket :: out)
      else if Ascii.eqb c "]" then lex s' None (RBracket :: out)
      else if Ascii.eqb c "{" then lex s' None (LBrace :: out)
      else if Ascii.eqb c "}" then lex s' None (RBrace :: out)
      else if Ascii.eqb c ":" then lex s' None (Colon :: out)
      else if Ascii.eqb c "," then lex s' None (Comma :: out)
      else if Ascii.eqb c dquote then lex s' (Some []) out
      else None
  | Some _, EmptyString => None
  | Some acc, String c s' =>
      if Ascii.eqb c dquote then lex s' None (Lit (string_of_rev acc) :: out)
      else if Ascii.eqb c backslash then
        match s' with
        | EmptyString => None
        | String e s'' =>
            if Ascii.eqb e "u" then
              match s'' with
              | String h1 (String h2 (String h3 (String h4 s5))) =>
                  match unicode_escape h1 h2 h3 h4 with
                  | Some x => lex s5 (Some (x :: acc)) out
                  | None => None
                  end
              | _ => None
              end
            else
              match short_escape e with
              | Some x => lex s'' (Some (x :: acc)) out
              | None => None
              end
        end
      else if (N_of_ascii c <? 32)%N then None
      else lex s' (Some (c :: acc)) out
  end.

(** The tokens of the text [stringify] writes. *)
Definition tokens_of_student (r : Student) : list token :=
  [LBrace; Lit "id"; Colon; Lit (Student.id r); Comma;
   Lit "first_name"; Colon; Lit (Student.first_name r); Comma;
   Lit "last_name"; Colon; Lit (Student.last_name r); Comma;
   Lit "email"; Colon; Lit (Student.email r); Comma;
   Lit "age"; Colon; Lit (Student.age r); Comma;
   Lit "grade"; Colon; Lit (Student.grade r); RBrace].

Fixpoint tokens_of_elements (l : list Student) : list token :=
  match l with
  | [] => []
  | [r] => tokens_of_student r
  | r :: l' => tokens_of_student r ++ Comma :: tokens_of_elements l'
  end.

(** The members of an object after its opening brace, up to and
    including the closing one. *)
Fixpoint parse_members (ts : list token)
  : option (list (string * string) * list token) :=
  match ts with
  | Lit k :: Colon :: Lit v :: RBrace :: ts' => Some ([(k, v)], ts')
  | Lit k :: Colon :: Lit v :: Comma :: ts' =>
      '(ms, rest) ← parse_members ts';
      Some ((k, v) :: ms, rest)
  | _ => None
  end.

Definition parse_object (ts : list token)
  : option (list (string * string) * list token) :=
  match ts with
  | LBrace :: RBrace :: ts' => Some ([], ts')
  | LBrace :: ts' => parse_members ts'
  | _ => None
  end.

(** The member an object holds under a key: the last one written. *)
Fixpoint field (k : string) (ms : list (string * string)) : option string :=
  match ms with
  | [] => None
  | (k', v) :: ms' =>
      match field k ms' with
      | Some v' => Some v'
      | None => if String.eqb k' k then Some v else None
      end
  end.

(** The object read at type [Student]: each of the six members is
    there. *)
Definition student_of_members (ms : list (string * string)) : option Student :=
  i ← field "id" ms; f ← field "first_name" ms; l ← field "last_name" ms;
  e ← field "email" ms; a ← field "age" ms; g ← field "grade" ms;
  Some (Student.mk i f l e a g).

(** The elements of an array after its opening bracket, up to and
    including the closing one.  Every element takes at least one
    token, so the number of tokens is fuel enough. *)
Fixpoint parse_elements (fuel : nat) (ts : list token)
  : option (list Student * list token) :=
  match fuel with
  | O => None
  | S fuel' =>
      '(ms, rest) ← parse_object ts;
      r ← student_of_members ms;
      match rest with
      | RBracket :: rest' => Some ([r], rest')
      | Comma :: rest' =>
          '(l, rest'') ← parse_elements fuel' rest';
          Some (r :: l, rest'')
      | _ => None
      end
  end.

Definition parse_array (ts : list token) : option (list Student * list token) :=
  match ts with
  | LBracket :: RBracket :: ts' => Some ([], ts')
  | LBracket :: ts' => parse_elements (length ts') ts'
  | _ => None
  end.

(** [JSON.parse] at type [Student[]]: [None] is the SyntaxError.  It is
    also the answer of this model for a well-formed text that denotes
    something else than an array of objects with the six members as
    strings, a value the component would store unchecked and that
    [list Student] cannot hold. *)
Definition parse (text : string) : option (list Student) :=
  ts ← lex text None [];
  '(l, rest) ← parse_array ts;
  match rest with
  | [] => Some l
  | _ :: _ => None
  end.

End JSON.

(** The student of the scenarios. *)
Definition ann : Student := Student.mk "1" "Ann" "" "a@x.com" "10" "5".

(** * What both screens share *)

(** The two destinations of the navigator ([RootStackParamList]). *)
Inductive Screen : Type := Login | Home.

(** A dialog put up by [Alert.alert]. *)
Record Dialog : Type := mkDialog {
  title : string;
  message : string;
}.

Global Instance Dialog_eq_dec : EqDecision Dialog.
Proof. solve_decision. Defined.

(** How an awaited promise settles. *)
Inductive settled : Type := Fulfilled | Rejected.

(** * The login screen *)

Module LoginScreen.

(** What comes back from the endpoint. *)
Inductive http : Type :=
| NetworkError
| Response (status : Z) (data : Js.value).

(** [axios.post]: the promise is rejected when no answer arrives and
    when the status is outside 2xx (the default [validateStatus]);
    otherwise it is fulfilled and [response.data] is the body. *)
Definition axios_post (h : http) : option Js.value :=
  match h with
  | NetworkError => None
  | Response status data =>
      if ((200 <=? status) && (status <? 300))%Z then Some data else None
  end.

Record State : Type := mk {
  email : string;
  password : string;
  alerts : list Dialog;
  route : Screen;
  (** the bodies posted to the endpoint so far *)
  posted : list (string * string);
}.

Definition initial : State := mk "" "" [] Login [].

Definition setEmail (v : string) (s : State) : State :=
  mk v (password s) (alerts s) (route s) (posted s).

Definition setPassword (v : string) (s : State) : State :=
  mk (email s) v (alerts s) (route s) (posted s).

Definition Alert_alert (t m : string) (s : State) : State :=
  mk (email s) (password s) (alerts s ++ [mkDialog t m]) (route s) (posted s).

Definition navigation_replace (r : Screen) (s : State) : State :=
  mk (email s) (password s) (alerts s) r (posted s).

Definition post (s : State) : State :=
  mk (email s) (password s) (alerts s) (route s)
     (posted s ++ [(email s, password s)]).

Definition handleLogin (net : http) (s : State) : State :=
  if negb (Js.truthy (email s)) || negb (Js.truthy (password s)) then
    Alert_alert "Error" "Email dan password wajib diisi!" s
  else
    let s := post s in
    match axios_post net with
    | None => Alert_alert "Gagal" "Email atau password salah" s
    | Some data =>
        match Js.get data "token" with
        | None => Alert_alert "Gagal" "Email atau password salah" s
        | Some token =>
            if Js.truthy_value token then
              navigation_replace Home (Alert_alert "Sukses" "Login berhasil!" s)
            else s
        end
    end.

(** The dialogs the handler puts up. *)
Definition blank_dialog : Dialog :=
  mkDialog "Error" "Email dan password wajib diisi!".
Definition failure_dialog : Dialog :=
  mkDialog "Gagal" "Email atau password salah".
Definition success_dialog : Dialog :=
  mkDialog "Sukses" "Login berhasil!".

End LoginScreen.

(** * The records screen *)

Module HomeScreen.

Record State : Type := mk {
  students : list Student;
  name : string;
  email : string;
  age : string;
  grade : string;
  editId : option string;
  modalVisible : bool;
  selectedStudent : option Student;
  (** AsyncStorage *)
  storage : gmap string string;
  (** the dialogs put up so far *)
  alerts : list Dialog;
  (** the lines written by [console.error] so far *)
  console : list string;
  route : Screen;
}.

(** The component as [useState] initialises it, over a given
    AsyncStorage. *)
Definition initial (kv : gmap string string) : State :=
  mk [] "" "" "" "" None false None kv [] [] Home.

Definition setStudents (v : list Student) (s : State) : State :=
  mk v (name s) (email s) (age s) (grade s) (editId s) (modalVisible s)
     (selectedStudent s) (storage s) (alerts s) (console s) (route s).

Definition setName (v : string) (s : State) : State :=
  mk (students s) v (email s) (age s) (grade s) (editId s) (modalVisible s)
     (selectedStudent s) (storage s) (alerts s) (console s) (route s).

Definition setEmail (v : string) (s : State) : State :=
  mk (students s) (name s) v (age s) (grade s) (editId s) (modalVisible s)
     (selectedStudent s) (storage s) (alerts s) (console s) (route s).

Definition setAge (v : string) (s : State) : State :=
  mk (students s) (name s) (email s) v (grade s) (editId s) (modalVisible s)
     (selectedStudent s) (storage s) (alerts s) (console s) (route s).

Definition setGrade (v : string) (s : State) : State :=
  mk (students s) (name s) (email s) (age s) v (editId s) (modalVisible s)
     (selectedStudent s) (storage s) (alerts s) (console s) (route s).

Definition setEditId (v : option string) (s : State) : State :=
  mk (students s) (name s) (email s) (age s) (grade s) v (modalVisible s)
     (selectedStudent s) (storage s) (alerts s) (console s) (route s).

Definition setModalVisible (v : bool) (s : State) : State :=
  mk (students s) (name s) (email s) (age s) (grade s) (editId s) v
     (selectedStudent s) (storage s) (alerts s) (console s) (route s).

Definition setSelectedStudent (v : option Student) (s : State) : State :=
  mk (students s) (name s) (email s) (age s) (grade s) (editId s)
     (modalVisible s) v (storage s) (alerts s) (console s) (route s).

Definition AsyncStorage_setItem (k v : string) (s : State) : State :=
  mk (students s) (name s) (email s) (age s) (grade s) (editId s)
     (modalVisible s) (selectedStudent s) (<[k:=v]> (storage s))
     (alerts s) (console s) (route s).

Definition AsyncStorage_getItem (k : string) (s : State) : option string :=
  storage s !! k.

Definition Alert_alert (t m : string) (s : State) : State :=
  mk (students s) (name s) (email s) (age s) (grade s) (editId s)
     (modalVisible s) (selectedStudent s) (storage s)
     (alerts s ++ [mkDialog t m]) (console s) (route s).

Definition console_error (line : string) (s : State) : State :=
  mk (students s) (name s) (email s) (age s) (grade s) (editId s)
     (modalVisible s) (selectedStudent s) (storage s) (alerts s)
     (console s ++ [line]) (route s).

Definition navigation_replace (r : Screen) (s : State) : State :=
  mk (students s) (name s) (email s) (age s) (grade s) (editId s)
     (modalVisible s) (selectedStudent s) (storage s) (alerts s)
     (console s) r.

(** The effect run on mount.  [read] is how [getItem] settles. *)
Definition loadStudents (read : settled) (s : State) : State :=
  match read with
  | Rejected => console_error "Gagal mengambil data dari AsyncStorage:" s
  | Fulfilled =>
      match AsyncStorage_getItem "students" s with
      | Some storedData =>
          if Js.truthy storedData then
            match JSON.parse storedData with
            | Some data => setStudents data s
            | None => console_error "Gagal mengambil data dari AsyncStorage:" s
            end
          else s
      | None => s
      end
  end.

(** [write] is how [setItem] settles. *)
Definition saveToStorage (write : settled) (data : list Student) (s : State)
  : State :=
  match write with
  | Fulfilled => AsyncStorage_setItem "students" (JSON.stringify data) s
  | Rejected => console_error "Gagal menyimpan ke AsyncStorage:" s
  end.

(** The map callback of the edit branch. *)
Definition edited (editId name email age grade : string) (s : Student)
  : Student :=
  if decide (Student.id s = editId)
  then Student.mk editId name "" email age grade
  else s.

(** [now] is what [Date.now()] returns, [write] how the write to
    storage settles. *)
Definition saveStudent (now : Z) (write : settled) (s : State) : State :=
  if negb (Js.truthy (name s)) || negb (Js.truthy (email s))
     || negb (Js.truthy (age s)) || negb (Js.truthy (grade s))
  then Alert_alert "Error" "Semua kolom harus diisi!" s
  else
    let '(updatedStudents, s1) :=
      match Js.narrow (editId s) with
      | Some editId =>
          (edited editId (name s) (email s) (age s) (grade s) <$> students s,
           Alert_alert "Sukses" "Data siswa berhasil diperbarui!"
             (setEditId None s))
      | None =>
          let newStudent :=
            Student.mk (pretty now) (name s) "" (email s) (age s) (grade s) in
          (students s ++ [newStudent],
           Alert_alert "Sukses" "Siswa berhasil ditambahkan!" s)
      end in
    setGrade "" (setAge "" (setEmail "" (setName ""
      (saveToStorage write updatedStudents
        (setStudents updatedStudents s1))))).

(** The two buttons of the confirmation dialog. *)
Inductive button : Type := Batal | Hapus.

Definition deleteStudent (id : string) (pressed : button) (write : settled)
    (s : State) : State :=
  let s := Alert_alert "Konfirmasi"
             "Apakah Anda yakin ingin menghapus siswa ini?" s in
  match pressed with
  | Batal => s
  | Hapus =>
      let updatedStudents :=
        filter (λ student, Student.id student ≠ id) (students s) in
      Alert_alert "Sukses" "Siswa berhasil dihapus!"
        (saveToStorage write updatedStudents
          (setStudents updatedStudents s))
  end.

Definition editStudent (student : Student) (s : State) : State :=
  setEditId (Some (Student.id student))
    (setGrade (Student.grade student)
      (setAge (Student.age student)
        (setEmail (Student.email student)
          (setName (Student.first_name student) s)))).

Definition viewStudent (student : Student) (s : State) : State :=
  setModalVisible true (setSelectedStudent (Some student) s).

(** ** The screen as a machine driven by the user *)

Inductive event : Type :=
| ChangeName (v : string)
| ChangeEmail (v : string)
| ChangeAge (v : string)
| ChangeGrade (v : string)
| PressSave (now : Z) (write : settled)
| PressEdit (item : Student)
| PressDelete (item : Student) (pressed : button) (write : settled)
| PressView (item : Student)
| PressClose
| PressLogout.

Definition handle (e : event) (s : State) : State :=
  match e with
  | ChangeName v => setName v s
  | ChangeEmail v => setEmail v s
  | ChangeAge v => setAge v s
  | ChangeGrade v => setGrade v s
  | PressSave now write => saveStudent now write s
  | PressEdit item => editStudent item s
  | PressDelete item pressed write =>
      deleteStudent (Student.id item) pressed write s
  | PressView item => viewStudent item s
  | PressClose => setModalVisible false s
  | PressLogout => navigation_replace Login s
  end.

(** The buttons of a row exist for the rows of the list only. *)
Definition enabled (e : event) (s : State) : Prop :=
  match e with
  | PressEdit item | PressDelete item _ _ | PressView item =>
      item ∈ students s
  | _ => True
  end.

Definition ids (s : State) : list string := Student.id <$> students s.

(** The form passes the check of [saveStudent]. *)
Definition filled (s : State) : Prop :=
  name s ≠ "" ∧ email s ≠ "" ∧ age s ≠ "" ∧ grade s ≠ "".

(** The states the user can drive an empty list to, under a
    condition [ok] on the events taken. *)
Inductive reachable (ok : event → State → Prop) : State → Prop :=
| reach_initial kv : reachable ok (initial kv)
| reach_handle s e :
    reachable ok s → enabled e s → ok e s → reachable ok (handle e s).

Definition any_clock (e : event) (s : State) : Prop := True.

(** A save that adds a record happens at a time whose decimal form is
    the id of no record of the list. *)
Definition fresh_clock (e : event) (s : State) : Prop :=
  match e with
  | PressSave now _ =>
      filled s → Js.narrow (editId s) = None → pretty now ∉ ids s
  | _ => True
  end.

(** ** The dialogs and records the handlers build *)

Definition error_dialog : Dialog :=
  mkDialog "Error" "Semua kolom harus diisi!".
Definition added_dialog : Dialog :=
  mkDialog "Sukses" "Siswa berhasil ditambahkan!".
Definition updated_dialog : Dialog :=
  mkDialog "Sukses" "Data siswa berhasil diperbarui!".
Definition deleted_dialog : Dialog :=
  mkDialog "Sukses" "Siswa berhasil dihapus!".

(** The record the add branch builds. *)
Definition newStudent (now : Z) (s : State) : Student :=
  Student.mk (pretty now) (name s) "" (email s) (age s) (grade s).

(** The record the edit branch puts in the place of a match. *)
Definition replacement (editId : string) (s : State) : Student :=
  Student.mk editId (name s) "" (email s) (age s) (grade s).

(** Two records added at the same reading of the clock. *)
Definition two_saves_one_clock : list event :=
  [ChangeName "Ann"; ChangeEmail "a@x.com"; ChangeAge "10"; ChangeGrade "5";
   PressSave 1700000000000 Fulfilled;
   ChangeName "Bob"; ChangeEmail "b@x.com"; ChangeAge "11"; ChangeGrade "6";
   PressSave 1700000000000 Fulfilled].

(** One record added, edited, and another one added later. *)
Definition add_edit_add : list event :=
  [ChangeName "Ann"; ChangeEmail "a@x.com"; ChangeAge "10"; ChangeGrade "5";
   PressSave 1700000000000 Fulfilled;
   PressEdit (Student.mk "1700000000000" "Ann" "" "a@x.com" "10" "5");
   ChangeGrade "6";
   PressSave 1700000000500 Fulfilled;
   ChangeName "Bob"; ChangeEmail "b@x.com"; ChangeAge "11"; ChangeGrade "6";
   PressSave 1700000001000 Fulfilled].

(** The events of a session, first to last. *)
Definition run (es : list event) (s : State) : State :=
  foldl (λ s e, handle e s) s es.

End HomeScreen.

(** * Facts about the host language *)

Module JsFacts.


Lemma truthy_false s : Js.truthy s = false ↔ s = "".
Proof. destruct s; simpl; split; congruence. Qed.

Lemma narrow_Some o e : Js.narrow o = Some e ↔ o = Some e ∧ e ≠ "".
Proof.
  destruct o as [[|c s]|]; simpl; split; try congruence.
  - intros [[= <-] H]. congruence.
  - intros [= <-]. split; congruence.
  - intros [H _]. exact H.
  - intros [H _]. congruence.
Qed.

Lemma narrow_None o : Js.narrow o = None ↔ o = None ∨ o = Some "".
Proof.
  destruct o as [[|c s]|]; simpl; split; try congruence; auto.
  intros [H|H]; congruence.
Qed.

End JsFacts.

(** * The JSON text of a student array reads back as the array *)

Module JSONFacts.
Import JSON.
Local Open Scope string_scope.

(** An escaped character is read back as the character. *)
Lemma lex_quote_char c tail acc out :
  lex (quote_char c ++ tail) (Some acc) out = lex tail (Some (c :: acc)) out.
Proof.
  destruct c as [[] [] [] [] [] [] [] []]; reflexivity.
Qed.

Lemma string_app_cons c (a b : string) : String c a ++ b = String c (a ++ b).
Proof. reflexivity. Qed.

Lemma string_app_nil_l (a : string) : "" ++ a = a.
Proof. reflexivity. Qed.

Lemma string_app_assoc (a b c : string) : (a ++ b) ++ c = a ++ (b ++ c).
Proof.
  induction a as [|x a IH]; [done|].
  by rewrite !string_app_cons, IH.
Qed.

Lemma string_app_nil_r (a : string) : a ++ "" = a.
Proof.
  induction a as [|x a IH]; [done|]. by rewrite string_app_cons, IH.
Qed.

Lemma string_of_snoc (l : list ascii) c s :
  string_of_list_ascii (l ++ [c])%list ++ s
  = string_of_list_ascii l ++ String c s.
Proof.
  induction l as [|x l IH]; [done|].
  cbn [string_of_list_ascii app]. by rewrite !string_app_cons, IH.
Qed.

Lemma string_of_rev_cons c acc s :
  string_of_rev (c :: acc) ++ s = string_of_rev acc ++ String c s.
Proof. unfold string_of_rev. cbn [rev]. apply string_of_snoc. Qed.

(** Inside a literal, the escaped text of [s] followed by the closing
    quote yields the characters of [s]. *)
Lemma lex_quote_body s tail acc out :
  lex (quote_body s ++ String dquote tail) (Some acc) out
  = lex tail None (Lit (string_of_rev acc ++ s) :: out).
Proof.
  revert acc. induction s as [|c s IH]; intros acc.
  - cbn [quote_body]. rewrite string_app_nil_l, string_app_nil_r.
    reflexivity.
  - cbn [quote_body]. rewrite string_app_assoc, lex_quote_char, IH.
    by rewrite string_of_rev_cons.
Qed.

Lemma lex_quote s tail out :
  lex (quote s ++ tail) None out = lex tail None (Lit s :: out).
Proof.
  unfold quote. rewrite string_app_cons, string_app_assoc, string_app_cons.
  rewrite string_app_nil_l.
  change (lex (String dquote ?x) None out) with (lex x (Some []) out).
  by rewrite lex_quote_body.
Qed.

Lemma lex_lbracket s out :
  lex (String "[" s) None out = lex s None (LBracket :: out).
Proof. reflexivity. Qed.

Lemma lex_rbracket s out :
  lex (String "]" s) None out = lex s None (RBracket :: out).
Proof. reflexivity. Qed.

Lemma lex_lbrace s out :
  lex (String "{" s) None out = lex s None (LBrace :: out).
Proof. reflexivity. Qed.

Lemma lex_rbrace s out :
  lex (String "}" s) None out = lex s None (RBrace :: out).
Proof. reflexivity. Qed.

Lemma lex_colon s out :
  lex (String ":" s) None out = lex s None (Colon :: out).
Proof. reflexivity. Qed.

Lemma lex_comma s out :
  lex (String "," s) None out = lex s None (Comma :: out).
Proof. reflexivity. Qed.

Lemma lex_member k v tail out :
  lex (stringify_member k v ++ tail) None out
  = lex tail None (Lit v :: Colon :: Lit k :: out).
Proof.
  unfold stringify_member.
  rewrite !string_app_assoc, lex_quote, string_app_cons, string_app_nil_l.
  by rewrite lex_colon, lex_quote.
Qed.

Lemma lex_student r tail out :
  lex (stringify_student r ++ tail) None out
  = lex tail None (rev (tokens_of_student r) ++ out)%list.
Proof.
  unfold stringify_student.
  rewrite !string_app_assoc, !string_app_cons, !string_app_nil_l.
  rewrite lex_lbrace.
  do 5 rewrite lex_member, lex_comma.
  by rewrite lex_member, lex_rbrace.
Qed.

Lemma lex_elements l tail out :
  lex (stringify_elements l ++ tail) None out
  = lex tail None (rev (tokens_of_elements l) ++ out)%list.
Proof.
  revert out. induction l as [|r [|r' l] IH]; intros out.
  - reflexivity.
  - apply lex_student.
  - change (stringify_elements (r :: r' :: l))
      with (stringify_student r ++ "," ++ stringify_elements (r' :: l)).
    change (tokens_of_elements (r :: r' :: l))
      with (tokens_of_student r ++ Comma :: tokens_of_elements (r' :: l))%list.
    rewrite !string_app_assoc, lex_student.
    rewrite string_app_cons, string_app_nil_l, lex_comma, IH.
    f_equal. rewrite rev_app_distr. cbn [rev].
    by rewrite <- !app_assoc.
Qed.

Lemma lex_stringify l :
  lex (stringify l) None []
  = Some (LBracket :: tokens_of_elements l ++ [RBracket])%list.
Proof.
  unfold stringify.
  rewrite string_app_cons, string_app_nil_l, lex_lbracket, lex_elements.
  rewrite lex_rbracket. cbn [lex rev]. f_equal.
  by rewrite rev_app_distr, rev_involutive.
Qed.

Lemma parse_object_student r rest :
  parse_object (tokens_of_student r ++ rest)%list
  = Some ([("id", Student.id r); ("first_name", Student.first_name r);
           ("last_name", Student.last_name r); ("email", Student.email r);
           ("age", Student.age r); ("grade", Student.grade r)], rest).
Proof. reflexivity. Qed.

Lemma student_of_members_student r :
  student_of_members
    [("id", Student.id r); ("first_name", Student.first_name r);
     ("last_name", Student.last_name r); ("email", Student.email r);
     ("age", Student.age r); ("grade", Student.grade r)] = Some r.
Proof. destruct r. reflexivity. Qed.

Lemma tokens_of_elements_cons r l :
  tokens_of_elements (r :: l) =
    match l with
    | [] => tokens_of_student r
    | _ :: _ => (tokens_of_student r ++ Comma :: tokens_of_elements l)%list
    end.
Proof. destruct l; reflexivity. Qed.

Lemma length_tokens_of_elements l :
  (length l ≤ length (tokens_of_elements l))%nat.
Proof.
  induction l as [|r l IH]; [done|].
  rewrite tokens_of_elements_cons. destruct l as [|r' l].
  - cbn. lia.
  - rewrite length_app. cbn [length] in *. lia.
Qed.

(** A non-empty run of elements, closed by the bracket, with fuel for
    each element. *)
Lemma parse_elements_tokens l r rest fuel :
  (length (r :: l) ≤ fuel)%nat →
  parse_elements fuel (tokens_of_elements (r :: l) ++ RBracket :: rest)%list
  = Some (r :: l, rest).
Proof.
  revert r fuel. induction l as [|r' l IH]; intros r fuel Hfuel.
  - destruct fuel as [|fuel]; [cbn in Hfuel; lia|].
    cbn [tokens_of_elements parse_elements].
    rewrite parse_object_student. cbn [mbind option_bind].
    by rewrite student_of_members_student.
  - destruct fuel as [|fuel]; [cbn in Hfuel; lia|].
    rewrite tokens_of_elements_cons, <- app_assoc.
    cbn [parse_elements]. rewrite parse_object_student.
    cbn [mbind option_bind]. rewrite student_of_members_student.
    cbn [mbind option_bind app].
    rewrite IH by (cbn [length] in *; lia). reflexivity.
Qed.

Lemma parse_array_tokens l :
  parse_array (LBracket :: tokens_of_elements l ++ [RBracket])%list
  = Some (l, []).
Proof.
  destruct l as [|r l]; [reflexivity|].
  assert (parse_array (LBracket :: tokens_of_elements (r :: l) ++ [RBracket])%list
          = parse_elements
              (length (tokens_of_elements (r :: l) ++ [RBracket])%list)
              (tokens_of_elements (r :: l) ++ [RBracket])%list) as ->.
  { rewrite tokens_of_elements_cons. by destruct l. }
  apply parse_elements_tokens.
  rewrite length_app. pose proof (length_tokens_of_elements (r :: l)). lia.
Qed.

(** [JSON.parse (JSON.stringify data)] is [data]. *)
Lemma parse_stringify l : parse (stringify l) = Some l.
Proof.
  unfold parse. rewrite lex_stringify. cbn [mbind option_bind].
  by rewrite parse_array_tokens.
Qed.

(** The text of an array is never the empty string. *)
Lemma stringify_truthy l : Js.truthy (stringify l) = true.
Proof. reflexivity. Qed.

End JSONFacts.

(** * The records screen: saving *)

Module HomeScreenFacts.
Import HomeScreen.

(** ** The three ways through [saveStudent] *)

Lemma saveStudent_blank now write s :
  name s = "" ∨ email s = "" ∨ age s = "" ∨ grade s = "" →
  saveStudent now write s = Alert_alert "Error" "Semua kolom harus diisi!" s.
Proof.
  unfold saveStudent. intros H.
  destruct (name s), (email s), (age s), (grade s); try reflexivity.
  exfalso. destruct H as [H|[H|[H|H]]]; discriminate.
Qed.

Lemma filled_check s :
  filled s →
  negb (Js.truthy (name s)) || negb (Js.truthy (email s))
  || negb (Js.truthy (age s)) || negb (Js.truthy (grade s)) = false.
Proof.
  intros (Hn & He & Ha & Hg).
  destruct (name s), (email s), (age s), (grade s); done.
Qed.

Lemma saveStudent_add now write s :
  filled s → Js.narrow (editId s) = None →
  saveStudent now write s =
    setGrade "" (setAge "" (setEmail "" (setName ""
      (saveToStorage write (students s ++ [newStudent now s])
        (setStudents (students s ++ [newStudent now s])
          (Alert_alert "Sukses" "Siswa berhasil ditambahkan!" s)))))).
Proof.
  intros Hf Hn. unfold saveStudent. by rewrite (filled_check s Hf), Hn.
Qed.

Lemma saveStudent_edit now write s e :
  filled s → Js.narrow (editId s) = Some e →
  saveStudent now write s =
    setGrade "" (setAge "" (setEmail "" (setName ""
      (saveToStorage write
        (edited e (name s) (email s) (age s) (grade s) <$> students s)
        (setStudents
          (edited e (name s) (email s) (age s) (grade s) <$> students s)
          (Alert_alert "Sukses" "Data siswa berhasil diperbarui!"
            (setEditId None s))))))).
Proof.
  intros Hf Hn. unfold saveStudent. by rewrite (filled_check s Hf), Hn.
Qed.

(** ** What the edit branch does to the list *)

Lemma edited_id e n m a g r : Student.id (edited e n m a g r) = Student.id r.
Proof. unfold edited. by case_decide. Qed.

Lemma edited_ids e n m a g (l : list Student) :
  Student.id <$> (edited e n m a g <$> l) = Student.id <$> l.
Proof.
  rewrite <- list_fmap_compose. apply list_fmap_ext.
  intros i r _. apply edited_id.
Qed.

Lemma edited_no_match e n m a g (l : list Student) :
  e ∉ Student.id <$> l → edited e n m a g <$> l = l.
Proof.
  intros Hno. induction l as [|r l IH]; [done|].
  rewrite fmap_cons in Hno. apply not_elem_of_cons in Hno as [Hr Hl].
  rewrite fmap_cons, (IH Hl). f_equal.
  unfold edited. case_decide; congruence.
Qed.

(** ** Projections of a state after the write to storage *)

Lemma students_saveToStorage write data s :
  students (saveToStorage write data s) = students s.
Proof. by destruct write. Qed.

Lemma alerts_saveToStorage write data s :
  alerts (saveToStorage write data s) = alerts s.
Proof. by destruct write. Qed.

Lemma editId_saveToStorage write data s :
  editId (saveToStorage write data s) = editId s.
Proof. by destruct write. Qed.

Lemma storage_saveToStorage write data s :
  storage (saveToStorage write data s) =
    match write with
    | Fulfilled => <["students" := JSON.stringify data]> (storage s)
    | Rejected => storage s
    end.
Proof. by destruct write. Qed.

Lemma console_saveToStorage write data s :
  console (saveToStorage write data s) =
    match write with
    | Fulfilled => console s
    | Rejected => console s ++ ["Gagal menyimpan ke AsyncStorage:"]
    end.
Proof. by destruct write. Qed.

(** ** Saving with a blank field *)

(** C2.  When one of the four fields of the form (name, email, age,
    grade) is empty, [saveStudent] puts up the validation dialog and
    changes nothing else: the list of students and hence its length,
    the four fields, [editId], the modal, the content of storage, the
    console and the route are what they were. *)
Theorem saveStudent_blank_field_rejected now write s :
  name s = "" ∨ email s = "" ∨ age s = "" ∨ grade s = "" →
  let s' := saveStudent now write s in
  alerts s' = alerts s ++ [error_dialog]
  ∧ students s' = students s
  ∧ length (students s') = length (students s)
  ∧ name s' = name s ∧ email s' = email s
  ∧ age s' = age s ∧ grade s' = grade s
  ∧ editId s' = editId s
  ∧ modalVisible s' = modalVisible s
  ∧ selectedStudent s' = selectedStudent s
  ∧ storage s' = storage s
  ∧ console s' = console s
  ∧ route s' = route s.
Proof.
  intros H s'. subst s'. rewrite (saveStudent_blank now write s H).
  repeat split.
Qed.

Lemma saveStudent_blank_field_rejected_witness :
  let s := mk [ann] "Bob" "" "11" "6" None false None ∅ [] [] Home in
  let s' := saveStudent 1700000000000 Fulfilled s in
  alerts s' = [error_dialog] ∧ students s' = [ann] ∧ storage s' = ∅.
Proof.
  pose proof (saveStudent_blank_field_rejected 1700000000000 Fulfilled
    (mk [ann] "Bob" "" "11" "6" None false None ∅ [] [] Home)
    (or_intror (or_introl eq_refl))) as H.
  cbv zeta in H. destruct H as (Ha & Hs & _ & _ & _ & _ & _ & _ & _ & _ & Hk & _).
  cbv zeta. split; [exact Ha|]. split; [exact Hs|exact Hk].
Defined.

(** ** Saving a new record *)

(** C3.  With the four fields filled and [editId] unset (the test
    [if (editId)] fails), [saveStudent] appends one record to the end
    of the list: the length grows by one, every record stays where it
    was, the record at the new last position has the time of the call as
    its id, the name, email, age and grade of the form and an empty
    last name, the success dialog is put up, the four fields of the
    form are empty afterwards, and the new list is what the write to
    storage stores. *)
Theorem saveStudent_appends_new_record now write s :
  filled s → Js.narrow (editId s) = None →
  let s' := saveStudent now write s in
  students s' = students s ++ [newStudent now s]
  ∧ length (students s') = S (length (students s))
  ∧ (∀ i r, students s !! i = Some r → students s' !! i = Some r)
  ∧ students s' !! length (students s) =
      Some (Student.mk (pretty now) (name s) "" (email s) (age s) (grade s))
  ∧ name s' = "" ∧ email s' = "" ∧ age s' = "" ∧ grade s' = ""
  ∧ editId s' = editId s
  ∧ alerts s' = alerts s ++ [added_dialog]
  ∧ storage s' =
      match write with
      | Fulfilled =>
          <["students" := JSON.stringify (students s ++ [newStudent now s])]>
            (storage s)
      | Rejected => storage s
      end.
Proof.
  intros Hf Hn s'. subst s'. rewrite (saveStudent_add now write s Hf Hn).
  cbn [students name email age grade editId alerts storage
       setGrade setAge setEmail setName].
  rewrite students_saveToStorage, editId_saveToStorage, alerts_saveToStorage,
    storage_saveToStorage.
  cbn [students editId alerts storage setStudents Alert_alert].
  split; [done|]. split; [rewrite length_app; cbn; lia|].
  split; [intros i r Hi; by apply lookup_app_l_Some|].
  split; [by rewrite list_lookup_middle|done].
Qed.

Lemma saveStudent_appends_new_record_witness :
  students (saveStudent 1700000000000 Fulfilled
              (mk [ann] "Bob" "b@x.com" "11" "6" None false None ∅ [] [] Home))
  = [ann; Student.mk "1700000000000" "Bob" "" "b@x.com" "11" "6"].
Proof.
  refine (proj1 (saveStudent_appends_new_record 1700000000000 Fulfilled
    (mk [ann] "Bob" "b@x.com" "11" "6" None false None ∅ [] [] Home) _ _)).
  - repeat split; discriminate.
  - reflexivity.
Defined.

(** ** Saving an edit *)

(** C4.  With the four fields filled, [editId] set (the test
    [if (editId)] succeeds) and the id of a record of the list,
    [saveStudent] keeps the length of the list; a record whose id is
    [editId] is replaced, at its position, by the record with that id,
    the name, email, age and grade of the form and an empty last name;
    every other record stays as it was at its position; some position
    is replaced; and [editId] is [null] afterwards. *)
Theorem saveStudent_replaces_edited_record now write s e :
  filled s → Js.narrow (editId s) = Some e → e ∈ ids s →
  let s' := saveStudent now write s in
  length (students s') = length (students s)
  ∧ (∀ i r, students s !! i = Some r → Student.id r = e →
       students s' !! i =
         Some (Student.mk e (name s) "" (email s) (age s) (grade s)))
  ∧ (∀ i r, students s !! i = Some r → Student.id r ≠ e →
       students s' !! i = Some r)
  ∧ (∃ i r, students s !! i = Some r ∧ Student.id r = e
       ∧ students s' !! i = Some (replacement e s))
  ∧ ids s' = ids s
  ∧ editId s' = None.
Proof.
  intros Hf Hn He s'. subst s'. rewrite (saveStudent_edit now write s e Hf Hn).
  unfold ids.
  cbn [students editId setGrade setAge setEmail setName].
  rewrite students_saveToStorage, editId_saveToStorage.
  cbn [students editId setStudents Alert_alert setEditId].
  assert (∀ i r, students s !! i = Some r →
            (edited e (name s) (email s) (age s) (grade s) <$> students s) !! i
            = Some (edited e (name s) (email s) (age s) (grade s) r)) as Hat.
  { intros i r Hi. by rewrite list_lookup_fmap, Hi. }
  split; [by rewrite length_fmap|].
  split.
  { intros i r Hi Hid. rewrite (Hat i r Hi). unfold edited.
    by rewrite decide_True. }
  split.
  { intros i r Hi Hid. rewrite (Hat i r Hi). unfold edited.
    by rewrite decide_False. }
  split.
  { unfold ids in He. apply list_elem_of_fmap in He as (r & Hid & Hr).
    apply list_elem_of_lookup in Hr as [i Hi].
    exists i, r. split; [done|]. split; [done|].
    rewrite (Hat i r Hi). unfold edited, replacement.
    by rewrite decide_True. }
  split; [apply edited_ids|done].
Qed.

Lemma saveStudent_replaces_edited_record_witness :
  students (saveStudent 1700000000000 Fulfilled
              (mk [ann] "Ann" "a@x.com" "10" "6" (Some "1") false None ∅ [] []
                  Home)) !! 0
  = Some (Student.mk "1" "Ann" "" "a@x.com" "10" "6").
Proof.
  refine (proj1 (proj2 (saveStudent_replaces_edited_record 1700000000000
    Fulfilled
    (mk [ann] "Ann" "a@x.com" "10" "6" (Some "1") false None ∅ [] [] Home)
    "1" _ _ _)) 0 ann _ _).
  - repeat split; discriminate.
  - reflexivity.
  - apply list_elem_of_here.
  - reflexivity.
  - reflexivity.
Defined.

(** ** Saving an edit of a record that is not in the list *)

(** C7.  With the four fields filled and [editId] set (the test
    [if (editId)] succeeds) to an id that no record of the list has,
    [saveStudent] leaves the list of students as it was, and the one
    dialog it puts up is the success dialog of the edit branch: no
    error is reported. *)
Theorem saveStudent_unmatched_edit_keeps_list now write s e :
  filled s → Js.narrow (editId s) = Some e → e ∉ ids s →
  let s' := saveStudent now write s in
  students s' = students s
  ∧ alerts s' =
      alerts s ++ [mkDialog "Sukses" "Data siswa berhasil diperbarui!"]
  ∧ match write with
    | Fulfilled => console s' = console s
    | Rejected =>
        console s' = console s ++ ["Gagal menyimpan ke AsyncStorage:"]
    end.
Proof.
  intros Hf Hn He s'. subst s'. rewrite (saveStudent_edit now write s e Hf Hn).
  cbn [students alerts console setGrade setAge setEmail setName].
  rewrite students_saveToStorage, alerts_saveToStorage, console_saveToStorage.
  cbn [students alerts console setStudents Alert_alert setEditId].
  split; [by apply edited_no_match|]. split; [done|]. by destruct write.
Qed.

Lemma saveStudent_unmatched_edit_keeps_list_witness :
  students (saveStudent 1700000000000 Fulfilled
              (mk [ann] "Bob" "b@x.com" "11" "6" (Some "2") false None ∅ [] []
                  Home))
  = [ann].
Proof.
  refine (proj1 (saveStudent_unmatched_edit_keeps_list 1700000000000 Fulfilled
    (mk [ann] "Bob" "b@x.com" "11" "6" (Some "2") false None ∅ [] [] Home)
    "2" _ _ _)).
  - repeat split; discriminate.
  - reflexivity.
  - unfold ids. cbn. rewrite list_elem_of_singleton. discriminate.
Defined.

(** C10.  With the four fields filled and [editId] set (the test
    [if (editId)] succeeds) to an id that no record of the list has,
    [saveStudent] still goes all the way through the edit branch:
    [editId] is [null] and the four fields are empty afterwards, the
    success dialog of the edit branch is put up, and the list, which is
    the one it was, is written to storage under the key [students]
    (when that write is rejected, storage keeps its content and the
    failure goes to the console). *)
Theorem saveStudent_unmatched_edit_completes now write s e :
  filled s → Js.narrow (editId s) = Some e → e ∉ ids s →
  let s' := saveStudent now write s in
  editId s' = None
  ∧ name s' = "" ∧ email s' = "" ∧ age s' = "" ∧ grade s' = ""
  ∧ alerts s' = alerts s ++ [updated_dialog]
  ∧ students s' = students s
  ∧ match write with
    | Fulfilled =>
        storage s' = <["students" := JSON.stringify (students s)]> (storage s)
        ∧ console s' = console s
    | Rejected =>
        storage s' = storage s
        ∧ console s' = console s ++ ["Gagal menyimpan ke AsyncStorage:"]
    end.
Proof.
  intros Hf Hn He s'. subst s'. rewrite (saveStudent_edit now write s e Hf Hn).
  rewrite (edited_no_match e _ _ _ _ (students s) He).
  cbn [students alerts editId name email age grade storage console
       setGrade setAge setEmail setName].
  rewrite students_saveToStorage, alerts_saveToStorage, editId_saveToStorage,
    storage_saveToStorage, console_saveToStorage.
  cbn [students alerts editId storage console setStudents Alert_alert
       setEditId].
  repeat split; try done. by destruct write.
Qed.

Lemma saveStudent_unmatched_edit_completes_witness :
  editId (saveStudent 1700000000000 Fulfilled
            (mk [ann] "Bob" "b@x.com" "11" "6" (Some "2") false None ∅ [] []
                Home))
  = None.
Proof.
  refine (proj1 (saveStudent_unmatched_edit_completes 1700000000000 Fulfilled
    (mk [ann] "Bob" "b@x.com" "11" "6" (Some "2") false None ∅ [] [] Home)
    "2" _ _ _)).
  - repeat split; discriminate.
  - reflexivity.
  - unfold ids. cbn. rewrite list_elem_of_singleton. discriminate.
Defined.

(** ** The last name of a saved record *)

(** C9.  With the four fields filled, every record [saveStudent]
    writes has the empty string as its last name: in the add branch the
    record appended at the end of the list, in the edit branch the
    record put at each position whose record had the id [editId],
    whatever last name the record at that position had before. *)
Theorem saveStudent_writes_empty_last_name now write s :
  filled s →
  let s' := saveStudent now write s in
  match Js.narrow (editId s) with
  | None =>
      ∃ r, students s' !! length (students s) = Some r
           ∧ students s' = students s ++ [r]
           ∧ Student.last_name r = ""
  | Some e =>
      ∀ i old, students s !! i = Some old → Student.id old = e →
        ∃ r, students s' !! i = Some r
             ∧ Student.id r = e
             ∧ Student.last_name r = ""
  end
  ∧ (∀ i r, students s' !! i = Some r → students s !! i ≠ Some r →
       Student.last_name r = "").
Proof.
  intros Hf s'. subst s'.
  destruct (Js.narrow (editId s)) as [e|] eqn:Hn.
  - rewrite (saveStudent_edit now write s e Hf Hn).
    cbn [students setGrade setAge setEmail setName].
    rewrite students_saveToStorage. cbn [students setStudents].
    split.
    + intros i old Hi Hid. eexists. rewrite list_lookup_fmap, Hi.
      split; [reflexivity|]. unfold edited. by rewrite decide_True.
    + intros i r Hi Hne. rewrite list_lookup_fmap in Hi.
      destruct (students s !! i) as [old|] eqn:Hold; [|done].
      cbn in Hi. injection Hi as <-. unfold edited in *.
      case_decide; [done|]. congruence.
  - rewrite (saveStudent_add now write s Hf Hn).
    cbn [students setGrade setAge setEmail setName].
    rewrite students_saveToStorage. cbn [students setStudents].
    split.
    + exists (newStudent now s). by rewrite list_lookup_middle.
    + intros i r Hi Hne.
      apply lookup_app_Some in Hi as [Hi|[_ Hi]]; [congruence|].
      apply list_lookup_singleton_Some in Hi as [_ <-]. done.
Qed.

Lemma saveStudent_writes_empty_last_name_witness :
  ∃ r, students (saveStudent 1700000000000 Fulfilled
                   (mk [Student.mk "1" "Ann" "Lee" "a@x.com" "10" "5"]
                       "Ann" "a@x.com" "10" "6" (Some "1") false None ∅ [] []
                       Home)) !! 0 = Some r
       ∧ Student.id r = "1" ∧ Student.last_name r = "".
Proof.
  refine (proj1 (saveStudent_writes_empty_last_name 1700000000000 Fulfilled
    (mk [Student.mk "1" "Ann" "Lee" "a@x.com" "10" "5"]
        "Ann" "a@x.com" "10" "6" (Some "1") false None ∅ [] [] Home) _)
    0 (Student.mk "1" "Ann" "Lee" "a@x.com" "10" "5") _ _).
  - repeat split; discriminate.
  - reflexivity.
  - reflexivity.
Defined.

(** An [editId] that holds the empty string fails the test
    [if (editId)]: the save adds a record and [editId] stays. *)
Lemma saveStudent_empty_editId_adds now write s :
  filled s → editId s = Some "" →
  students (saveStudent now write s) = students s ++ [newStudent now s]
  ∧ editId (saveStudent now write s) = Some "".
Proof.
  intros Hf He.
  assert (Js.narrow (editId s) = None) as Hn by (by rewrite He).
  rewrite (saveStudent_add now write s Hf Hn).
  cbn [students editId setGrade setAge setEmail setName].
  rewrite students_saveToStorage, editId_saveToStorage.
  by cbn [students editId setStudents Alert_alert].
Qed.

(** * The records screen: storage *)

Lemma getItem_after_save data s :
  AsyncStorage_getItem "students" (saveToStorage Fulfilled data s)
  = Some (JSON.stringify data).
Proof. unfold AsyncStorage_getItem. cbn. apply lookup_insert_eq. Qed.

(** Loading reads back what the last fulfilled write stored. *)
Lemma loadStudents_stored data s :
  AsyncStorage_getItem "students" s = Some (JSON.stringify data) →
  loadStudents Fulfilled s = setStudents data s.
Proof.
  intros H. unfold loadStudents. rewrite H.
  by rewrite JSONFacts.stringify_truthy, JSONFacts.parse_stringify.
Qed.

(** C5.  For every list of records, writing it with [saveToStorage]
    and reading it with [loadStudents] gives the list back, in the
    running component and in one mounted afresh over the same storage
    (both calls to AsyncStorage fulfilled): [JSON.parse] undoes
    [JSON.stringify]. *)
Theorem saveToStorage_loadStudents_roundtrip (records : list Student) s :
  JSON.parse (JSON.stringify records) = Some records
  ∧ students (loadStudents Fulfilled (saveToStorage Fulfilled records s))
    = records
  ∧ students (loadStudents Fulfilled
                (initial (storage (saveToStorage Fulfilled records s))))
    = records.
Proof.
  split; [apply JSONFacts.parse_stringify|]. split.
  - rewrite (loadStudents_stored records); [done|].
    apply getItem_after_save.
  - rewrite (loadStudents_stored records); [done|].
    unfold AsyncStorage_getItem. cbn. apply lookup_insert_eq.
Qed.

(** * The records screen: deleting *)

Lemma filter_id_absent id (l : list Student) :
  id ∉ Student.id <$> l → filter (λ r, Student.id r ≠ id) l = l.
Proof.
  intros Hno. induction l as [|r l IH]; [done|].
  rewrite fmap_cons in Hno. apply not_elem_of_cons in Hno as [Hr Hl].
  rewrite filter_cons_True by congruence. by rewrite (IH Hl).
Qed.

Lemma filter_id_gone id (l : list Student) :
  id ∉ Student.id <$> filter (λ r, Student.id r ≠ id) l.
Proof.
  intros Hin. apply list_elem_of_fmap in Hin as (r & Hid & Hr).
  apply list_elem_of_filter in Hr as [Hne _]. congruence.
Qed.

Lemma students_deleteStudent id write s :
  students (deleteStudent id Hapus write s)
  = filter (λ r, Student.id r ≠ id) (students s).
Proof.
  unfold deleteStudent. cbn [students Alert_alert].
  by rewrite students_saveToStorage.
Qed.

(** C6.  Confirming the removal of an id leaves the records whose id is
    another one, in their order, and no record with that id; a list
    without that id is left as it was; and a component mounted afresh
    over the storage the removal wrote loads that same list, in which
    no record has the removed id (the calls to AsyncStorage
    fulfilled). *)
Theorem deleteStudent_removes_id id write s :
  let s' := deleteStudent id Hapus write s in
  students s' = filter (λ r, Student.id r ≠ id) (students s)
  ∧ (∀ r, r ∈ students s' ↔ r ∈ students s ∧ Student.id r ≠ id)
  ∧ sublist (students s') (students s)
  ∧ (id ∉ ids s')
  ∧ (id ∉ ids s → students s' = students s)
  ∧ (let restarted :=
       loadStudents Fulfilled
         (initial (storage (deleteStudent id Hapus Fulfilled s))) in
     students restarted = students s' ∧ id ∉ ids restarted).
Proof.
  intros s'. subst s'. unfold ids. rewrite !students_deleteStudent.
  split; [done|].
  split; [intros r; rewrite list_elem_of_filter; tauto|].
  split; [apply sublist_filter|].
  split; [apply filter_id_gone|].
  split; [apply filter_id_absent|].
  cbv zeta.
  rewrite (loadStudents_stored
             (filter (λ r, Student.id r ≠ id) (students s))).
  - split; [done|]. apply filter_id_gone.
  - unfold AsyncStorage_getItem, deleteStudent. cbn. apply lookup_insert_eq.
Qed.

Lemma deleteStudent_removes_id_witness :
  students (deleteStudent "2" Hapus Fulfilled
              (mk [ann] "" "" "" "" None false None ∅ [] [] Home))
  = [ann].
Proof.
  refine (proj1 (proj2 (proj2 (proj2 (proj2
    (deleteStudent_removes_id "2" Fulfilled
       (mk [ann] "" "" "" "" None false None ∅ [] [] Home)))))) _).
  unfold ids. cbn. rewrite list_elem_of_singleton. discriminate.
Defined.

(** * The records screen: the ids of the list *)

Lemma filled_or_blank s :
  filled s ∨ (name s = "" ∨ email s = "" ∨ age s = "" ∨ grade s = "").
Proof.
  unfold filled.
  destruct (decide (name s = "")); [tauto|].
  destruct (decide (email s = "")); [tauto|].
  destruct (decide (age s = "")); [tauto|].
  destruct (decide (grade s = "")); tauto.
Qed.

Lemma ids_filter id (l : list Student) :
  Student.id <$> filter (λ r, Student.id r ≠ id) l
  = filter (λ x, x ≠ id) (Student.id <$> l).
Proof.
  induction l as [|r l IH]; [done|].
  rewrite fmap_cons, !filter_cons. repeat case_decide; try done.
  by rewrite fmap_cons, IH.
Qed.

(** What one save does to the ids. *)
Lemma ids_saveStudent now write s :
  ids (saveStudent now write s) =
    match Js.narrow (editId s) with
    | Some _ => ids s
    | None =>
        if decide (name s = "" ∨ email s = "" ∨ age s = "" ∨ grade s = "")
        then ids s else ids s ++ [pretty now]
    end.
Proof.
  unfold ids. destruct (filled_or_blank s) as [Hf|Hb].
  - destruct (Js.narrow (editId s)) as [e|] eqn:Hn.
    + rewrite (saveStudent_edit now write s e Hf Hn).
      cbn [students setGrade setAge setEmail setName].
      rewrite students_saveToStorage. cbn [students setStudents].
      apply edited_ids.
    + rewrite (saveStudent_add now write s Hf Hn).
      cbn [students setGrade setAge setEmail setName].
      rewrite students_saveToStorage. cbn [students setStudents].
      rewrite decide_False by (unfold filled in Hf; tauto).
      by rewrite fmap_app.
  - rewrite (saveStudent_blank now write s Hb). cbn [students Alert_alert].
    rewrite decide_True by done. by destruct (Js.narrow (editId s)).
Qed.

(** What one event does to the ids: an edit and every event that is
    neither a save nor a confirmed removal leave them as they are,
    position by position; an addition puts the decimal form of the time
    at the end; a removal drops the id removed. *)
Lemma ids_handle e s :
  ids (handle e s) =
    match e with
    | PressSave now _ =>
        match Js.narrow (editId s) with
        | Some _ => ids s
        | None =>
            if decide (name s = "" ∨ email s = "" ∨ age s = "" ∨ grade s = "")
            then ids s else ids s ++ [pretty now]
        end
    | PressDelete item Hapus _ => filter (λ x, x ≠ Student.id item) (ids s)
    | _ => ids s
    end.
Proof.
  destruct e as [v|v|v|v|now write|item|item [] write|item| |]; try reflexivity.
  - apply ids_saveStudent.
  - cbn [handle]. unfold ids. rewrite students_deleteStudent.
    apply ids_filter.
Qed.

Lemma reachable_ids_NoDup s : reachable fresh_clock s → NoDup (ids s).
Proof.
  induction 1 as [kv|s e Hs IH Hen Hok].
  - apply NoDup_nil_2.
  - rewrite ids_handle.
    destruct e as [v|v|v|v|now write|item|item [] write|item| |]; try done.
    + destruct (Js.narrow (editId s)) as [e|] eqn:Hn; [done|].
      case_decide as Hb; [done|].
      apply NoDup_app. split; [done|]. split; [|apply NoDup_singleton].
      intros x Hx Hx'. apply list_elem_of_singleton in Hx' as ->.
      revert Hx. apply Hok; [|done]. unfold filled.
      destruct (decide (name s = "")); [tauto|].
      destruct (decide (email s = "")); [tauto|].
      destruct (decide (age s = "")); [tauto|].
      destruct (decide (grade s = "")); tauto.
    + by apply NoDup_filter.
Qed.

(** C8, as the code has it.  In every state reached from the empty
    list by events of the screen, each addition made at a time whose
    decimal form is the id of no record of the list, the ids of the
    list are pairwise distinct.  Whatever the state, an addition gives
    the new record the decimal form of the time of the call as its id
    and keeps the ids before it; an edit keeps the id at every
    position; a confirmed removal drops the removed id and keeps the
    others; no other event touches the ids. *)
Theorem ids_unique_when_clock_fresh s :
  reachable fresh_clock s →
  NoDup (ids s)
  ∧ ∀ e,
      ids (handle e s) =
        match e with
        | PressSave now _ =>
            match Js.narrow (editId s) with
            | Some _ => ids s
            | None =>
                if decide (name s = "" ∨ email s = "" ∨ age s = ""
                           ∨ grade s = "")
                then ids s else ids s ++ [pretty now]
            end
        | PressDelete item Hapus _ =>
            filter (λ x, x ≠ Student.id item) (ids s)
        | _ => ids s
        end.
Proof.
  intros H. split; [by apply reachable_ids_NoDup|].
  intros e. apply ids_handle.
Qed.

(** A concrete session is reachable when each of its events is allowed
    where it happens. *)
Lemma reachable_run ok es s :
  reachable ok s →
  (∀ done e, done `prefix_of` es → done ≠ es →
     es !! length done = Some e →
     enabled e (run done s) ∧ ok e (run done s)) →
  reachable ok (run es s).
Proof.
  intros Hs. induction es as [|e es IH] using rev_ind; intros Hall; [done|].
  unfold run. rewrite foldl_app. cbn [foldl]. fold (run es s).
  destruct (Hall es e) as [Hen Hok].
  - by apply prefix_app_r.
  - intros Heq. apply (f_equal length) in Heq.
    rewrite length_app in Heq. cbn in Heq. lia.
  - by rewrite list_lookup_middle.
  - apply reach_handle; [|done..]. apply IH.
    intros done e' Hpre Hne Hlook. apply Hall.
    + by apply prefix_app_r.
    + intros ->. apply prefix_length in Hpre.
      rewrite length_app in Hpre. cbn in Hpre. lia.
    + apply lookup_app_l_Some. done.
Qed.

(** C8, as stated, fails: ids need not be distinct.  Two additions
    made at the same reading of the clock give two records the same
    id. *)
Lemma same_clock_gives_same_id :
  reachable any_clock (run two_saves_one_clock (initial ∅))
  ∧ ids (run two_saves_one_clock (initial ∅))
    = ["1700000000000"; "1700000000000"]
  ∧ ¬ NoDup (ids (run two_saves_one_clock (initial ∅))).
Proof.
  split.
  { apply reachable_run; [apply reach_initial|].
    intros done e _ _ Hlook. split; [|exact I].
    assert (length done < length two_saves_one_clock) as Hlt
      by (eapply lookup_lt_Some; exact Hlook).
    cbn in Hlt.
    do 10 (destruct done as [|? done];
           [cbn in Hlook; injection Hlook as <-; exact I|cbn in Hlt]).
    lia. }
  split; [reflexivity|].
  change (ids (run two_saves_one_clock (initial ∅)))
    with ["1700000000000"; "1700000000000"].
  rewrite NoDup_cons. intros [Hin _]. apply Hin. apply list_elem_of_here.
Qed.

Lemma ids_unique_when_clock_fresh_witness :
  NoDup (ids (run add_edit_add (initial ∅))).
Proof.
  refine (proj1 (ids_unique_when_clock_fresh (run add_edit_add (initial ∅)) _)).
  unfold run, add_edit_add. cbn [foldl].
  repeat (apply reach_handle; [| try exact I | try exact I]).
  - apply reach_initial.
  - intros _ _. apply not_elem_of_nil.
  - cbn. apply list_elem_of_here.
  - intros _ Hn. discriminate Hn.
  - intros _ _. cbn. rewrite list_elem_of_singleton. discriminate.
Defined.

(** ** The scenario of the specification: add, edit, delete *)

Definition add_ann : list event :=
  [ChangeName "Ann"; ChangeEmail "a@x.com"; ChangeAge "10"; ChangeGrade "5";
   PressSave 1700000000000 Fulfilled].

Definition ann_added : Student :=
  Student.mk "1700000000000" "Ann" "" "a@x.com" "10" "5".

Example scenario_add :
  students (run add_ann (initial ∅)) = [ann_added].
Proof. reflexivity. Qed.

Example scenario_edit :
  students (run (add_ann ++ [PressEdit ann_added; ChangeGrade "6";
                             PressSave 1700000060000 Fulfilled]) (initial ∅))
  = [Student.mk "1700000000000" "Ann" "" "a@x.com" "10" "6"].
Proof. reflexivity. Qed.

Example scenario_delete :
  students (run (add_ann ++ [PressDelete ann_added Hapus Fulfilled])
              (initial ∅)) = [].
Proof. reflexivity. Qed.

Example scenario_restart :
  students (loadStudents Fulfilled
              (initial (storage (run add_ann (initial ∅))))) = [ann_added].
Proof. vm_compute. reflexivity. Qed.

(** A removal whose write is rejected leaves the old text in storage:
    a component mounted afresh loads the removed record again. *)
Example rejected_write_keeps_record :
  students (loadStudents Fulfilled
              (initial (storage (run (add_ann ++
                 [PressDelete ann_added Hapus Rejected]) (initial ∅)))))
  = [ann_added].
Proof. vm_compute. reflexivity. Qed.

End HomeScreenFacts.

(** * The login screen *)

Module LoginScreenFacts.
Import LoginScreen.

Lemma credentials_check s :
  email s ≠ "" → password s ≠ "" →
  negb (Js.truthy (email s)) || negb (Js.truthy (password s)) = false.
Proof. intros He Hp. destruct (email s), (password s); done. Qed.

(** With a credential missing no request is made. *)
Lemma handleLogin_blank net s :
  email s = "" ∨ password s = "" →
  handleLogin net s = Alert_alert "Error" "Email dan password wajib diisi!" s.
Proof.
  intros H. unfold handleLogin.
  destruct (email s), (password s); try reflexivity.
  exfalso. destruct H; discriminate.
Qed.

(** A rejected call (no answer, or a status outside 2xx) ends in the
    failure dialog, on the login screen. *)
Lemma handleLogin_rejected net s :
  email s ≠ "" → password s ≠ "" → axios_post net = None →
  alerts (handleLogin net s) = alerts s ++ [failure_dialog]
  ∧ route (handleLogin net s) = route s.
Proof.
  intros He Hp Hnet. unfold handleLogin.
  by rewrite (credentials_check s He Hp), Hnet.
Qed.

Lemma axios_post_network_error : axios_post NetworkError = None.
Proof. reflexivity. Qed.

Lemma axios_post_bad_status status data :
  (status < 200 ∨ 300 ≤ status)%Z → axios_post (Response status data) = None.
Proof.
  intros H. unfold axios_post.
  destruct (200 <=? status)%Z eqn:H1, (status <? 300)%Z eqn:H2; try done.
  apply Z.leb_le in H1. apply Z.ltb_lt in H2. lia.
Qed.

(** A body that is [null] or [undefined] makes the read of [token]
    throw inside the [try]: the failure dialog again. *)
Lemma handleLogin_no_body net s data :
  email s ≠ "" → password s ≠ "" →
  axios_post net = Some data → Js.get data "token" = None →
  alerts (handleLogin net s) = alerts s ++ [failure_dialog]
  ∧ route (handleLogin net s) = route s.
Proof.
  intros He Hp Hnet Hget. unfold handleLogin.
  by rewrite (credentials_check s He Hp), Hnet, Hget.
Qed.

(** A fulfilled call whose body has no truthy [token] ends the handler
    with nothing shown and the route kept. *)
Lemma handleLogin_falsy_token net s data token :
  email s ≠ "" → password s ≠ "" →
  axios_post net = Some data → Js.get data "token" = Some token →
  Js.truthy_value token = false →
  alerts (handleLogin net s) = alerts s
  ∧ route (handleLogin net s) = route s.
Proof.
  intros He Hp Hnet Hget Htok. unfold handleLogin.
  by rewrite (credentials_check s He Hp), Hnet, Hget, Htok.
Qed.

(** Only a truthy token leaves the login screen. *)
Lemma handleLogin_stays net s :
  route s = Login → route (handleLogin net s) = Home →
  ∃ data token, axios_post net = Some data
                ∧ Js.get data "token" = Some token
                ∧ Js.truthy_value token = true.
Proof.
  intros Hr. unfold handleLogin.
  destruct (negb (Js.truthy (email s)) || negb (Js.truthy (password s)));
    [intros H; cbn in H; rewrite Hr in H; discriminate|].
  destruct (axios_post net) as [data|] eqn:Hnet;
    [|intros H; cbn in H; rewrite Hr in H; discriminate].
  destruct (Js.get data "token") as [token|] eqn:Hget;
    [|intros H; cbn in H; rewrite Hr in H; discriminate].
  destruct (Js.truthy_value token) eqn:Ht;
    [|intros H; cbn in H; rewrite Hr in H; discriminate].
  intros _. by exists data, token.
Qed.

Example login_blank_password :
  let s := handleLogin NetworkError (mk "eve.holt@reqres.in" "" [] Login []) in
  posted s = [] ∧ alerts s = [blank_dialog] ∧ route s = Login.
Proof. repeat split. Qed.

Example login_status_400 :
  let s := handleLogin (Response 400 (Js.Object [("error", Js.Str "user not found")]))
             (mk "eve.holt@reqres.in" "x" [] Login []) in
  alerts s = [failure_dialog] ∧ route s = Login.
Proof. repeat split. Qed.

Example login_token :
  let s := handleLogin (Response 200 (Js.Object [("token", Js.Str "QpwL5tke4Pnpja7X4")]))
             (mk "eve.holt@reqres.in" "cityslicka" [] Login []) in
  alerts s = [success_dialog] ∧ route s = Home.
Proof. repeat split. Qed.

(** C1, at the input where the code departs from it.  Email and
    password are filled and the endpoint answers 200 with a body that
    has no [token]: the handler posts the credentials, puts up no
    dialog at all, and stays on the login screen. *)
Theorem handleLogin_missing_token_shows_nothing :
  let s := mk "eve.holt@reqres.in" "cityslicka" [] Login [] in
  let s' := handleLogin (Response 200 (Js.Object [])) s in
  posted s' = [("eve.holt@reqres.in", "cityslicka")]
  ∧ alerts s' = []
  ∧ (failure_dialog ∉ alerts s')
  ∧ route s' = Login.
Proof.
  cbv zeta. split; [reflexivity|]. split; [reflexivity|].
  split; [|reflexivity]. apply not_elem_of_nil.
Qed.

End LoginScreenFacts.

(** * More about the login screen *)

Module LoginScreenProperties.
Import LoginScreen.

(** The answers axios rejects: none at all, or a status outside 2xx. *)
Definition rejected_answer (net : http) : Prop :=
  net = NetworkError
  ∨ ∃ status data, net = Response status data ∧ (status < 200 ∨ 300 ≤ status)%Z.

(** The answers that carry a truthy token under a 2xx status. *)
Definition token_answer (net : http) : Prop :=
  ∃ status data token,
    net = Response status data ∧ (200 ≤ status < 300)%Z
    ∧ Js.get data "token" = Some token ∧ Js.truthy_value token = true.

Lemma axios_post_Some net data :
  axios_post net = Some data ↔
  ∃ status, net = Response status data ∧ (200 ≤ status < 300)%Z.
Proof.
  destruct net as [|status d]; cbn.
  - split; [discriminate|]. intros (st & H & _). discriminate.
  - split.
    + destruct (200 <=? status)%Z eqn:H1, (status <? 300)%Z eqn:H2;
        cbn; try discriminate.
      intros [= <-]. exists status. split; [done|].
      apply Z.leb_le in H1. apply Z.ltb_lt in H2. lia.
    + intros (st & [= <- <-] & Hr).
      rewrite (proj2 (Z.leb_le 200 status)), (proj2 (Z.ltb_lt status 300))
        by lia.
      reflexivity.
Qed.

(** X1.  When the email or the password is empty, pressing the login
    button makes no request: the only effect is the dialog asking for
    both, and the route and the two fields stay as they are, whatever
    the network would have answered. *)
Theorem handleLogin_blank_makes_no_request net s :
  email s = "" ∨ password s = "" →
  let s' := handleLogin net s in
  posted s' = posted s
  ∧ alerts s' = alerts s ++ [blank_dialog]
  ∧ route s' = route s
  ∧ email s' = email s ∧ password s' = password s.
Proof.
  intros H s'. subst s'.
  rewrite (LoginScreenFacts.handleLogin_blank net s H). repeat split.
Qed.

Lemma handleLogin_blank_makes_no_request_witness :
  posted (handleLogin (Response 200 (Js.Object [("token", Js.Str "t")]))
            (mk "eve.holt@reqres.in" "" [] Login [])) = [].
Proof.
  refine (proj1 (handleLogin_blank_makes_no_request
    (Response 200 (Js.Object [("token", Js.Str "t")]))
    (mk "eve.holt@reqres.in" "" [] Login []) _)).
  right. reflexivity.
Defined.

(** X2.  From the login screen, the handler replaces the route by
    [Home] exactly when both credentials are filled and the endpoint
    answers with a 2xx status and a body whose [token] is truthy. *)
Theorem handleLogin_navigates_iff_token net s :
  route s = Login →
  route (handleLogin net s) = Home
  ↔ email s ≠ "" ∧ password s ≠ "" ∧ token_answer net.
Proof.
  intros Hr. split.
  - intros Hh. unfold handleLogin in Hh.
    destruct (email s) as [|c1 e] eqn:He;
      [cbn in Hh; rewrite Hr in Hh; discriminate|].
    destruct (password s) as [|c2 p] eqn:Hp;
      [cbn in Hh; rewrite Hr in Hh; discriminate|].
    cbn [Js.truthy negb orb] in Hh.
    destruct (axios_post net) as [data|] eqn:Hnet;
      [|cbn in Hh; rewrite Hr in Hh; discriminate].
    destruct (Js.get data "token") as [token|] eqn:Hget;
      [|cbn in Hh; rewrite Hr in Hh; discriminate].
    destruct (Js.truthy_value token) eqn:Ht;
      [|cbn in Hh; rewrite Hr in Hh; discriminate].
    split; [done|]. split; [done|].
    apply axios_post_Some in Hnet as (status & -> & Hst).
    by exists status, data, token.
  - intros (He & Hp & status & data & token & -> & Hst & Hget & Ht).
    unfold handleLogin.
    rewrite (LoginScreenFacts.credentials_check s He Hp).
    assert (axios_post (Response status data) = Some data) as ->
      by (apply axios_post_Some; by exists status).
    by rewrite Hget, Ht.
Qed.

Lemma handleLogin_navigates_iff_token_witness :
  route (handleLogin (Response 200 (Js.Object [("token", Js.Str "t")]))
           (mk "eve.holt@reqres.in" "cityslicka" [] Login [])) = Home.
Proof.
  refine (proj2 (handleLogin_navigates_iff_token
    (Response 200 (Js.Object [("token", Js.Str "t")]))
    (mk "eve.holt@reqres.in" "cityslicka" [] Login []) _) _).
  - reflexivity.
  - split; [discriminate|]. split; [discriminate|].
    exists 200%Z, (Js.Object [("token", Js.Str "t")]), (Js.Str "t").
    repeat split; lia.
Defined.

(** X3.  With both credentials filled, an answer axios rejects (no
    answer, or any status below 200 or from 300 on) ends in the one
    failure dialog: the credentials were posted once, the route is
    kept. *)
Theorem handleLogin_rejected_answer_fails net s :
  email s ≠ "" → password s ≠ "" → rejected_answer net →
  let s' := handleLogin net s in
  alerts s' = alerts s ++ [failure_dialog]
  ∧ posted s' = posted s ++ [(email s, password s)]
  ∧ route s' = route s.
Proof.
  intros He Hp Hnet s'. subst s'.
  assert (axios_post net = None) as Hpost.
  { destruct Hnet as [->|(status & data & -> & Hst)]; [done|].
    by apply LoginScreenFacts.axios_post_bad_status. }
  unfold handleLogin.
  by rewrite (LoginScreenFacts.credentials_check s He Hp), Hpost.
Qed.

Lemma handleLogin_rejected_answer_fails_witness :
  alerts (handleLogin (Response 400 (Js.Object []))
            (mk "eve.holt@reqres.in" "x" [] Login [])) = [failure_dialog].
Proof.
  refine (proj1 (handleLogin_rejected_answer_fails
    (Response 400 (Js.Object []))
    (mk "eve.holt@reqres.in" "x" [] Login []) _ _ _)).
  - discriminate.
  - discriminate.
  - right. exists 400%Z, (Js.Object []). split; [reflexivity|]. lia.
Defined.

(** X4.  Whatever the answer, one press of the login button leaves the
    two fields as typed, posts the credentials once when both are
    filled and not at all otherwise, and puts up at most one dialog. *)
Theorem handleLogin_one_request_one_dialog net s :
  let s' := handleLogin net s in
  email s' = email s ∧ password s' = password s
  ∧ posted s' =
      (if Js.truthy (email s) && Js.truthy (password s)
       then posted s ++ [(email s, password s)] else posted s)
  ∧ (alerts s' = alerts s ∨ ∃ d, alerts s' = alerts s ++ [d]).
Proof.
  cbv zeta. unfold handleLogin.
  destruct (Js.truthy (email s)), (Js.truthy (password s));
    cbn [negb orb andb]; try (repeat split; right; by eexists).
  destruct (axios_post net) as [data|];
    [|repeat split; right; by eexists].
  destruct (Js.get data "token") as [token|];
    [|repeat split; right; by eexists].
  destruct (Js.truthy_value token); repeat split; [right; by eexists|by left].
Qed.

End LoginScreenProperties.

(** * More about the records screen *)

Module HomeScreenProperties.
Import HomeScreen HomeScreenFacts.



(** The component mounted over a storage: [useState] defaults, then the
    effect that loads the list. *)
Definition mount (read : settled) (kv : gmap string string) : State :=
  loadStudents read (initial kv).

(** What the user has in front of them: every cell of the component,
    the dialogs and the route, without storage and console. *)
Definition screen (s : State) :=
  (students s, name s, email s, age s, grade s, editId s,
   modalVisible s, selectedStudent s, alerts s, route s).

Definition save_error : string := "Gagal menyimpan ke AsyncStorage:".

(** ** Loading *)

Lemma storage_loadStudents read s : storage (loadStudents read s) = storage s.
Proof.
  unfold loadStudents. destruct read; [|done].
  destruct (AsyncStorage_getItem "students" s) as [text|]; [|done].
  destruct (Js.truthy text); [|done].
  by destruct (JSON.parse text).
Qed.

(** X5.  On a first run (nothing stored under [students]) and when the
    stored text is the empty string, loading changes nothing at all: the
    list stays as it is, no dialog is shown and nothing is logged. *)
Theorem loadStudents_nothing_stored s :
  storage s !! "students" = None ∨ storage s !! "students" = Some "" →
  loadStudents Fulfilled s = s.
Proof.
  intros H. unfold loadStudents, AsyncStorage_getItem.
  by destruct H as [-> | ->].
Qed.

Lemma loadStudents_nothing_stored_witness :
  loadStudents Fulfilled (initial ∅) = initial ∅.
Proof.
  refine (loadStudents_nothing_stored (initial ∅) _).
  left. reflexivity.
Defined.



(** ** What the handlers leave alone *)

Ltac save_cases s write :=
  unfold saveStudent;
  destruct (negb (Js.truthy (name s)) || negb (Js.truthy (email s))
            || negb (Js.truthy (age s)) || negb (Js.truthy (grade s)));
  [|destruct (Js.narrow (editId s)); destruct write].

Lemma storage_saveStudent_other now write s k :
  k ≠ "students" → storage (saveStudent now write s) !! k = storage s !! k.
Proof.
  intros Hk. save_cases s write; cbn; try done;
    by rewrite lookup_insert_ne.
Qed.

Lemma storage_deleteStudent_other id pressed write s k :
  k ≠ "students" →
  storage (deleteStudent id pressed write s) !! k = storage s !! k.
Proof.
  intros Hk. destruct pressed, write; cbn; try done.
  by rewrite lookup_insert_ne.
Qed.

Lemma storage_handle_other e s k :
  k ≠ "students" → storage (handle e s) !! k = storage s !! k.
Proof.
  intros Hk. destruct e; try reflexivity.
  - by apply storage_saveStudent_other.
  - by apply storage_deleteStudent_other.
Qed.

(** X7.  The screen owns one key of AsyncStorage: whatever the user
    does, and whether writes are fulfilled or rejected, every key other
    than [students] holds after the session what it held before; and
    loading writes no key at all. *)
Theorem session_touches_one_key es read s k :
  k ≠ "students" →
  storage (run es s) !! k = storage s !! k
  ∧ storage (loadStudents read s) = storage s.
Proof.
  intros Hk. split; [|apply storage_loadStudents].
  revert s. induction es as [|e es IH]; intros s; [done|].
  cbn [run foldl]. fold (run es (handle e s)).
  by rewrite IH, storage_handle_other.
Qed.

Lemma session_touches_one_key_witness :
  storage (run add_edit_add (initial {["theme" := "dark"]})) !! "theme"
  = Some "dark".
Proof.
  refine (proj1 (session_touches_one_key add_edit_add Fulfilled
    (initial {["theme" := "dark"]}) "theme" _)).
  discriminate.
Defined.

(** ** A rejected write *)

(** X8.  Saving and removing are optimistic: what the user sees after
    the handler (the list, the form, [editId], the dialogs) is the same
    whether the write to storage is fulfilled or rejected.  A rejected
    write leaves storage as it was, and logs at most one line. *)
Theorem rejected_write_is_not_rolled_back now id pressed s :
  screen (saveStudent now Rejected s) = screen (saveStudent now Fulfilled s)
  ∧ screen (deleteStudent id pressed Rejected s)
    = screen (deleteStudent id pressed Fulfilled s)
  ∧ storage (saveStudent now Rejected s) = storage s
  ∧ storage (deleteStudent id pressed Rejected s) = storage s
  ∧ (console (saveStudent now Rejected s) = console s
     ∨ console (saveStudent now Rejected s) = console s ++ [save_error])
  ∧ console (saveStudent now Fulfilled s) = console s.
Proof.
  split.
  { unfold saveStudent.
    destruct (negb (Js.truthy (name s)) || negb (Js.truthy (email s))
              || negb (Js.truthy (age s)) || negb (Js.truthy (grade s)));
      [done|].
    by destruct (Js.narrow (editId s)). }
  split; [by destruct pressed|].
  split.
  { unfold saveStudent.
    destruct (negb (Js.truthy (name s)) || negb (Js.truthy (email s))
              || negb (Js.truthy (age s)) || negb (Js.truthy (grade s)));
      [done|].
    by destruct (Js.narrow (editId s)). }
  split; [by destruct pressed|].
  split.
  - unfold saveStudent.
    destruct (negb (Js.truthy (name s)) || negb (Js.truthy (email s))
              || negb (Js.truthy (age s)) || negb (Js.truthy (grade s)));
      [by left|].
    destruct (Js.narrow (editId s)); by right.
  - unfold saveStudent.
    destruct (negb (Js.truthy (name s)) || negb (Js.truthy (email s))
              || negb (Js.truthy (age s)) || negb (Js.truthy (grade s)));
      [done|].
    by destruct (Js.narrow (editId s)).
Qed.

(** ** The list in memory and the list in storage *)

(** A component mounted afresh over the storage of [s]. *)
Definition restart (s : State) : State := mount Fulfilled (storage s).

Lemma students_restart_stored s l :
  storage s !! "students" = Some (JSON.stringify l) →
  students (restart s) = l.
Proof.
  intros H. unfold restart, mount.
  by rewrite (loadStudents_stored l (initial (storage s))).
Qed.







(** ** Pressing save twice *)

Lemma name_saveStudent_filled now write s :
  filled s → name (saveStudent now write s) = "".
Proof.
  intros Hf. destruct (Js.narrow (editId s)) as [e|] eqn:Hn.
  - by rewrite (saveStudent_edit now write s e Hf Hn).
  - by rewrite (saveStudent_add now write s Hf Hn).
Qed.

(** X10.  A save that passes the check empties the form, so pressing
    save again without typing is turned down by the check: the second
    press only puts up the validation dialog, and the list has the one
    new or edited record, not two. *)
Theorem second_save_is_rejected now1 write1 now2 write2 s :
  filled s →
  let s1 := saveStudent now1 write1 s in
  let s2 := saveStudent now2 write2 s1 in
  s2 = Alert_alert "Error" "Semua kolom harus diisi!" s1
  ∧ students s2 = students s1
  ∧ storage s2 = storage s1.
Proof.
  intros Hf s1 s2. subst s1 s2.
  rewrite (saveStudent_blank now2 write2 (saveStudent now1 write1 s)).
  - done.
  - left. by apply name_saveStudent_filled.
Qed.

Lemma second_save_is_rejected_witness :
  students (saveStudent 1700000000001 Fulfilled
             (saveStudent 1700000000000 Fulfilled
               (mk [] "Ann" "a@x.com" "10" "5" None false None ∅ [] [] Home)))
  = students (saveStudent 1700000000000 Fulfilled
               (mk [] "Ann" "a@x.com" "10" "5" None false None ∅ [] [] Home)).
Proof.
  refine (proj1 (proj2 (second_save_is_rejected 1700000000000 Fulfilled
    1700000000001 Fulfilled
    (mk [] "Ann" "a@x.com" "10" "5" None false None ∅ [] [] Home) _))).
  repeat split; discriminate.
Defined.

(** ** Editing *)

(** The four fields a record brings to the form are filled, and so is
    its id. *)
Definition complete (r : Student) : Prop :=
  Student.id r ≠ "" ∧ Student.first_name r ≠ "" ∧ Student.email r ≠ ""
  ∧ Student.age r ≠ "" ∧ Student.grade r ≠ "".

Lemma editStudent_filled r s : complete r → filled (editStudent r s).
Proof. intros (_ & Hn & He & Ha & Hg). by repeat split. Qed.

Lemma editStudent_narrow r s :
  Student.id r ≠ "" → Js.narrow (editId (editStudent r s)) = Some (Student.id r).
Proof. intros H. apply JsFacts.narrow_Some. by split. Qed.

Lemma students_save_after_edit now write r s :
  complete r →
  students (saveStudent now write (editStudent r s))
  = edited (Student.id r) (Student.first_name r) (Student.email r)
      (Student.age r) (Student.grade r) <$> students s.
Proof.
  intros Hc.
  rewrite (saveStudent_edit now write (editStudent r s) (Student.id r)
             (editStudent_filled r s Hc)
             (editStudent_narrow r s (proj1 Hc))).
  cbn [students setGrade setAge setEmail setName].
  by rewrite students_saveToStorage.
Qed.

Lemma same_id_same_record (l : list Student) x r :
  NoDup (Student.id <$> l) → x ∈ l → r ∈ l →
  Student.id x = Student.id r → x = r.
Proof.
  intros Hnd Hx Hr Hid.
  apply list_elem_of_lookup in Hx as [i Hi].
  apply list_elem_of_lookup in Hr as [j Hj].
  assert (i = j) as ->.
  { apply (NoDup_lookup (Student.id <$> l) i j (Student.id x) Hnd).
    - by rewrite list_lookup_fmap, Hi.
    - by rewrite list_lookup_fmap, Hj, Hid. }
  congruence.
Qed.

(** X11.  Opening a record for edit and saving without typing gives the
    list back as it was, when ids are distinct in the list and the
    record is complete and has an empty last name. *)
Theorem edit_then_save_keeps_list now write r s :
  r ∈ students s → NoDup (ids s) → complete r → Student.last_name r = "" →
  let s' := saveStudent now write (editStudent r s) in
  students s' = students s ∧ editId s' = None.
Proof.
  intros Hr Hnd Hc Hl s'. subst s'. split.
  - rewrite (students_save_after_edit now write r s Hc).
    rewrite <- (list_fmap_id (students s)) at 2.
    apply list_fmap_ext. intros i x Hi. unfold edited.
    case_decide as Hid; [|done].
    assert (x = r) as -> by
      (eapply same_id_same_record; eauto using list_elem_of_lookup_2).
    destruct r; cbn in *; by subst.
  - rewrite (saveStudent_edit now write (editStudent r s) (Student.id r)
               (editStudent_filled r s Hc)
               (editStudent_narrow r s (proj1 Hc))).
    cbn [editId setGrade setAge setEmail setName].
    by rewrite editId_saveToStorage.
Qed.

Lemma edit_then_save_keeps_list_witness :
  students (saveStudent 1700000000000 Fulfilled
              (editStudent ann (setStudents [ann] (initial ∅)))) = [ann].
Proof.
  refine (proj1 (edit_then_save_keeps_list 1700000000000 Fulfilled ann
    (setStudents [ann] (initial ∅)) _ _ _ _)).
  - apply list_elem_of_here.
  - apply NoDup_singleton.
  - repeat split; discriminate.
  - reflexivity.
Defined.

(** X12.  When the record under edit is removed before the save, the
    save does not bring it back: the list after the save is the list
    after the removal, no record has the removed id, and [editId] is
    [null] again. *)
Theorem save_after_removal_does_not_restore now write1 write2 r s :
  complete r →
  let s1 := deleteStudent (Student.id r) Hapus write1 (editStudent r s) in
  let s2 := saveStudent now write2 s1 in
  students s2 = students s1
  ∧ students s2 = filter (λ x, Student.id x ≠ Student.id r) (students s)
  ∧ (Student.id r ∉ ids s2)
  ∧ editId s2 = None.
Proof.
  intros Hc s1 s2.
  assert (filled s1) as Hf by (destruct Hc as (_ & ? & ? & ? & ?); by destruct write1).
  assert (Js.narrow (editId s1) = Some (Student.id r)) as Hn.
  { apply JsFacts.narrow_Some. split; [by destruct write1|apply Hc]. }
  assert (students s1 = filter (λ x, Student.id x ≠ Student.id r) (students s))
    as Hs1 by (subst s1; by rewrite students_deleteStudent).
  assert (Student.id r ∉ ids s1) as Hno.
  { unfold ids. rewrite Hs1. apply filter_id_gone. }
  assert (students s2 = students s1) as Hs2.
  { subst s2. rewrite (saveStudent_edit now write2 s1 _ Hf Hn).
    cbn [students setGrade setAge setEmail setName].
    rewrite students_saveToStorage. cbn [students setStudents].
    by apply edited_no_match. }
  split; [done|]. split; [by rewrite Hs2|].
  split; [unfold ids; by rewrite Hs2|].
  subst s2. rewrite (saveStudent_edit now write2 s1 _ Hf Hn).
  cbn [editId setGrade setAge setEmail setName].
  by rewrite editId_saveToStorage.
Qed.

Lemma save_after_removal_does_not_restore_witness :
  students (saveStudent 1700000000000 Fulfilled
              (deleteStudent "1" Hapus Fulfilled
                 (editStudent ann (setStudents [ann] (initial ∅))))) = [].
Proof.
  refine (proj1 (proj2 (save_after_removal_does_not_restore 1700000000000
    Fulfilled Fulfilled ann (setStudents [ann] (initial ∅)) _))).
  repeat split; discriminate.
Defined.

(** X13.  An [editId] that holds the empty string counts as unset:
    after opening for edit a record whose id is the empty string, a save
    appends a record with a new id, leaves every record of the list as
    it was, and leaves [editId] as it is. *)
Theorem edit_of_empty_id_adds now write r s :
  Student.id r = "" → Student.first_name r ≠ "" → Student.email r ≠ "" →
  Student.age r ≠ "" → Student.grade r ≠ "" →
  let s' := saveStudent now write (editStudent r s) in
  students s' =
    students s ++ [Student.mk (pretty now) (Student.first_name r) ""
                     (Student.email r) (Student.age r) (Student.grade r)]
  ∧ editId s' = Some "".
Proof.
  intros Hid Hn He Ha Hg s'. subst s'.
  assert (filled (editStudent r s)) as Hf by by repeat split.
  destruct (saveStudent_empty_editId_adds now write (editStudent r s) Hf)
    as [H1 H2]; [cbn; by rewrite Hid|].
  by rewrite H1, H2.
Qed.

Lemma edit_of_empty_id_adds_witness :
  length (students (saveStudent 1700000000000 Fulfilled
            (editStudent (Student.mk "" "Ann" "" "a@x.com" "10" "5")
               (setStudents [Student.mk "" "Ann" "" "a@x.com" "10" "5"]
                  (initial ∅))))) = 2.
Proof.
  refine (f_equal length (proj1 (edit_of_empty_id_adds 1700000000000 Fulfilled
    (Student.mk "" "Ann" "" "a@x.com" "10" "5")
    (setStudents [Student.mk "" "Ann" "" "a@x.com" "10" "5"] (initial ∅))
    _ _ _ _ _))); (reflexivity || discriminate).
Defined.

(** ** Removing *)

Lemma filter_id_comm a b (l : list Student) :
  filter (λ r, Student.id r ≠ a) (filter (λ r, Student.id r ≠ b) l)
  = filter (λ r, Student.id r ≠ b) (filter (λ r, Student.id r ≠ a) l).
Proof.
  induction l as [|r l IH]; [done|].
  rewrite !filter_cons.
  destruct (decide (Student.id r ≠ a)), (decide (Student.id r ≠ b));
    rewrite ?filter_cons, ?decide_True, ?decide_False by done;
    by rewrite IH.
Qed.

(** X14.  Removals do not depend on their order, and removing an id
    twice is removing it once: as far as the list goes, two confirmed
    removals commute and a repeated one changes nothing more. *)
Theorem removals_commute a b w1 w2 w3 w4 s :
  students (deleteStudent a Hapus w1 (deleteStudent b Hapus w2 s))
  = students (deleteStudent b Hapus w3 (deleteStudent a Hapus w4 s))
  ∧ students (deleteStudent a Hapus w1 (deleteStudent a Hapus w2 s))
    = students (deleteStudent a Hapus w2 s).
Proof.
  rewrite !students_deleteStudent. split; [apply filter_id_comm|].
  apply filter_id_absent, filter_id_gone.
Qed.

(** ** The detail modal *)

(** The event does not open the detail modal. *)
Definition opens_no_detail (e : event) : Prop :=
  match e with
  | PressView _ => False
  | _ => True
  end.

Lemma selectedStudent_handle e s :
  opens_no_detail e → selectedStudent (handle e s) = selectedStudent s.
Proof.
  intros He.
  destruct e as [v|v|v|v|now write|item|item pressed write|item| |];
    try reflexivity; [| |done].
  - cbn [handle]. unfold saveStudent.
    destruct (negb (Js.truthy (name s)) || negb (Js.truthy (email s))
              || negb (Js.truthy (age s)) || negb (Js.truthy (grade s)));
      [done|].
    by destruct (Js.narrow (editId s)), write.
  - by destruct pressed, write.
Qed.

(** X15.  The detail modal shows the record as it was when it was
    opened: whatever the user does afterwards short of opening another
    detail (editing or removing that very record included), the
    selected record stays the one that was viewed. *)
Theorem detail_is_a_snapshot es r s :
  Forall opens_no_detail es →
  selectedStudent (run es (viewStudent r s)) = Some r.
Proof.
  intros Hes.
  assert (selectedStudent (viewStudent r s) = Some r) as H0 by done.
  revert H0. generalize (viewStudent r s). clear s.
  induction Hes as [|e es He Hes IH]; intros s Hs; [done|].
  cbn [run foldl]. fold (run es (handle e s)).
  apply IH. by rewrite selectedStudent_handle.
Qed.

Lemma detail_is_a_snapshot_witness :
  selectedStudent
    (run [PressEdit ann; ChangeGrade "6"; PressSave 1700000000000 Fulfilled;
          PressDelete ann Hapus Fulfilled]
       (viewStudent ann (setStudents [ann] (initial ∅)))) = Some ann.
Proof.
  refine (detail_is_a_snapshot
    [PressEdit ann; ChangeGrade "6"; PressSave 1700000000000 Fulfilled;
     PressDelete ann Hapus Fulfilled] ann (setStudents [ann] (initial ∅)) _).
  repeat (apply Forall_cons; split; [exact I|]). apply Forall_nil_2.
Defined.

(** ** The records a session builds *)

Lemma pretty_N_go_nonempty x s : s ≠ "" → pretty_N_go x s ≠ "".
Proof.
  revert s. induction (N.lt_wf_0 x) as [x _ IH]; intros s Hs.
  assert (x = 0 ∨ 0 < x)%N as [->|Hx] by lia.
  - by rewrite pretty_N_go_0.
  - rewrite pretty_N_go_step by done. apply IH; [by apply N.div_lt|done].
Qed.

Lemma pretty_N_nonempty (x : N) : pretty x ≠ "".
Proof.
  unfold pretty, pretty_N. case_decide; [done|].
  rewrite pretty_N_go_step by lia. by apply pretty_N_go_nonempty.
Qed.

(** The decimal form of a clock reading is never the empty string. *)
Lemma pretty_Z_nonempty (z : Z) : pretty z ≠ "".
Proof.
  destruct z as [|p|p]; [done| |done].
  apply (pretty_N_nonempty (N.pos p)).
Qed.

(** A record as [saveStudent] builds them. *)
Definition built (r : Student) : Prop :=
  (∃ now : Z, Student.id r = pretty now)
  ∧ Student.first_name r ≠ "" ∧ Student.last_name r = ""
  ∧ Student.email r ≠ "" ∧ Student.age r ≠ "" ∧ Student.grade r ≠ "".

Lemma built_id_nonempty r : built r → Student.id r ≠ "".
Proof. intros [[now ->] _]. apply pretty_Z_nonempty. Qed.

Lemma reachable_built s :
  reachable any_clock s →
  Forall built (students s) ∧ (∀ e, editId s = Some e → e ≠ "").
Proof.
  induction 1 as [kv|s e Hs [IHl IHe] Hen _].
  - split; [apply Forall_nil_2|]. intros e H. discriminate.
  - destruct e as [v|v|v|v|now write|item|item pressed write|item| |];
      try (split; [exact IHl|exact IHe]).
    + cbn [handle]. destruct (filled_or_blank s) as [Hf|Hb].
      * destruct (Js.narrow (editId s)) as [e|] eqn:Hn.
        -- rewrite (saveStudent_edit now write s e Hf Hn).
           cbn [students editId setGrade setAge setEmail setName].
           rewrite students_saveToStorage, editId_saveToStorage.
           cbn [students editId setStudents Alert_alert setEditId].
           split; [|intros e' H'; discriminate].
           apply Forall_fmap. eapply Forall_impl; [exact IHl|].
           intros r Hr. cbn. unfold edited. case_decide as Hid; [|done].
           destruct Hr as ([n Hn'] & _). destruct Hf as (?&?&?&?).
           split; [exists n; cbn; congruence|]. by repeat split.
        -- rewrite (saveStudent_add now write s Hf Hn).
           cbn [students editId setGrade setAge setEmail setName].
           rewrite students_saveToStorage, editId_saveToStorage.
           cbn [students editId setStudents Alert_alert].
           split; [|exact IHe].
           apply Forall_app. split; [done|]. apply Forall_singleton.
           destruct Hf as (?&?&?&?).
           split; [by exists now|]. by repeat split.
      * rewrite (saveStudent_blank now write s Hb). by split.
    + cbn [handle]. split.
      * exact IHl.
      * cbn. intros e' [= <-]. apply built_id_nonempty.
        cbn in Hen. rewrite Forall_forall in IHl. by apply IHl.
    + cbn [handle]. destruct pressed.
      * by split.
      * split.
        -- rewrite students_deleteStudent. apply Forall_forall.
           intros r Hr. apply list_elem_of_filter in Hr as [_ Hr].
           rewrite Forall_forall in IHl. by apply IHl.
        -- by destruct write.
Qed.

(** X16.  Every record of a list built from scratch on this screen has
    the decimal form of a clock reading as its id, a name, an email, an
    age and a grade that are not empty, and an empty last name; and
    [editId] is [null] or a non-empty string, so that the test
    [if (editId)] tells exactly whether a record is under edit. *)
Theorem session_records_are_complete s :
  reachable any_clock s →
  (∀ r, r ∈ students s →
     (∃ now : Z, Student.id r = pretty now) ∧ complete r
     ∧ Student.last_name r = "")
  ∧ (∀ e, editId s = Some e → Js.narrow (editId s) = Some e).
Proof.
  intros Hs. destruct (reachable_built s Hs) as [Hl He]. split.
  - intros r Hr. rewrite Forall_forall in Hl.
    pose proof (Hl r Hr) as Hb. pose proof (built_id_nonempty r Hb).
    destruct Hb as (Hid & Hn & Hln & Hem & Ha & Hg). by repeat split.
  - intros e H. apply JsFacts.narrow_Some. split; [done|]. by apply He.
Qed.

Lemma session_records_are_complete_witness :
  Js.narrow (editId (run (add_ann ++ [PressEdit ann_added]) (initial ∅)))
  = Some "1700000000000".
Proof.
  refine (proj2 (session_records_are_complete
    (run (add_ann ++ [PressEdit ann_added]) (initial ∅)) _)
    "1700000000000" _).
  - unfold run, add_ann. cbn [foldl app].
    repeat (apply reach_handle; [| try exact I | exact I]).
    + apply reach_initial.
    + cbn. apply list_elem_of_here.
  - reflexivity.
Defined.

(** ** A failed load followed by a save *)

(** X17.  When the load at mount fails (the read is rejected), the
    list starts empty although storage may hold records; the first
    record then added is written as the whole list, so that a component
    mounted afresh finds that record alone, whatever was stored
    before. *)
Theorem save_after_failed_load_overwrites kv now n e a g :
  n ≠ "" → e ≠ "" → a ≠ "" → g ≠ "" →
  let s := run [ChangeName n; ChangeEmail e; ChangeAge a; ChangeGrade g;
                PressSave now Fulfilled] (mount Rejected kv) in
  students s = [Student.mk (pretty now) n "" e a g]
  ∧ storage s = <["students" :=
                    JSON.stringify [Student.mk (pretty now) n "" e a g]]> kv
  ∧ students (restart s) = [Student.mk (pretty now) n "" e a g].
Proof.
  intros Hn He Ha Hg s. subst s. unfold run. cbn [foldl handle].
  set (s0 := setGrade g (setAge a (setEmail e (setName n (mount Rejected kv))))).
  assert (filled s0) as Hf by by repeat split.
  assert (Js.narrow (editId s0) = None) as Hno by done.
  rewrite (saveStudent_add now Fulfilled s0 Hf Hno).
  assert (students (setGrade "" (setAge "" (setEmail "" (setName ""
            (saveToStorage Fulfilled (students s0 ++ [newStudent now s0])
               (setStudents (students s0 ++ [newStudent now s0])
                  (Alert_alert "Sukses" "Siswa berhasil ditambahkan!" s0)))))))
          = [Student.mk (pretty now) n "" e a g]) as Hst by done.
  split; [exact Hst|]. split; [done|].
  apply students_restart_stored. cbn. apply lookup_insert_eq.
Qed.

Lemma save_after_failed_load_overwrites_witness :
  students (restart
    (run [ChangeName "Bob"; ChangeEmail "b@x.com"; ChangeAge "11";
          ChangeGrade "6"; PressSave 1700000000000 Fulfilled]
       (mount Rejected {["students" := JSON.stringify [ann]]})))
  = [Student.mk (pretty 1700000000000%Z) "Bob" "" "b@x.com" "11" "6"].
Proof.
  refine (proj2 (proj2 (save_after_failed_load_overwrites
    {["students" := JSON.stringify [ann]]} 1700000000000
    "Bob" "b@x.com" "11" "6" _ _ _ _))); discriminate.
Defined.

End HomeScreenProperties.
